(** * RAG with Weaviate: the notebook pipeline of docs/examples/rag_weaviate.ipynb

    The notebook converts a list of papers, chunks every document with
    docling-core's [HierarchicalChunker], prefixes every chunk text with the
    title of its paper, stores the records in an embedded Weaviate
    collection and finally runs a generative near-text query.

    The code cells are embedded as state transformers over the notebook's
    global variables.  The external collaborators are not part of the
    repository:
    - the chunker is a parameter, a function from documents to chunk lists;
    - the answers of the Weaviate server to one [insert_many] call (the
      uuid of every object, the server-side error of the rejected ones) are
      an explicit environment [Env];
    - the embedding distance and the generative model behind [near_text]
      are parameters. *)

From stdpp Require Import gmap strings list sorting.
From Stdlib Require Import NArith.



(** ** Python helpers *)

(** [str.replace(old, new)]: left to right, occurrences do not overlap.
    [skip] counts the characters of the current occurrence still to drop. *)
Fixpoint replace_from (old new : string) (skip : nat) (s : string) : string :=
  match s with
  | EmptyString => EmptyString
  | String c s' =>
      match skip with
      | S k => replace_from old new k s'
      | O =>
          if String.prefix old s
          then new +:+ replace_from old new (String.length old - 1) s'
          else String c (replace_from old new 0 s')
      end
  end.

(** With an empty [old], Python puts [new] before every character and at
    the end. *)
Fixpoint replace_empty (new : string) (s : string) : string :=
  match s with
  | EmptyString => new
  | String c s' => new +:+ String c (replace_empty new s')
  end.

Definition replace (old new s : string) : string :=
  match old with
  | EmptyString => replace_empty new s
  | _ => replace_from old new 0 s
  end.

(** The line break. *)
Definition newline : Ascii.ascii := Ascii.ascii_of_nat 10.

(** ** docling-core: what the notebook sees of a chunk *)

Module DocChunk.
(** [text] is the only attribute the notebook reads; [headings] is the
    heading path that [chunk.meta] carries. *)
Record t := mk { text : string; headings : list string }.
End DocChunk.

(** ** Weaviate: collections, objects and the batch response

    Neither the client nor the server is part of the repository.  The
    types below are those the notebook touches; the operations follow the
    calls the notebook makes and the contract the specification gives for
    the vector store (sections 4.3, 4.4 and 6). *)

Module Weaviate.

(** A [data_point] of cell 22: the dictionary with keys "text" and
    "title".  There is no other key. *)
Record Properties := mkProperties { text : string; title : string }.

Record Object := mkObject { uuid : N; properties : Properties }.

Record Property := mkProperty { name : string; skip_vectorization : bool }.

Record Config := mkConfig {
  vectorizer_model : string;
  generative_model : string;
  schema : list Property }.

Record Collection := mkCollection { config : Config; objects : list Object }.

Record ErrorObject := mkErrorObject { message : string; object_ : Object }.

(** The result of [insert_many]: for every position of the batch either
    the uuid of the stored object or the error of the rejected one. *)
Record BatchObjectReturn := mkBatchObjectReturn {
  uuids : list (nat * N);
  errors : list (nat * ErrorObject);
  has_errors : bool }.

Record GenerativeReturn := mkGenerativeReturn {
  generated : string;
  returned : list Object }.

(** [GenerationFailure] is the error of a generative query whose generation
    service fails; the specification (section 7) has it carry the
    retrieved chunks. *)
Inductive Error :=
| UnexpectedStatusCodeError (what : string)
| WeaviateInsertManyAllFailedError (errs : list (nat * ErrorObject))
| GenerationFailure (retrieved : list Object).

(** What the outside world contributes to one [insert_many] call: the
    uuid4 drawn for the object at each position, and the server's verdict
    on it ([None]: stored). *)
Record Env := mkEnv {
  uuid4 : nat → N;
  server_error : nat → option string }.

(** [client.collections.exists(name)] *)
Definition exists_ (cs : gmap string Collection) (n : string) : bool :=
  bool_decide (is_Some (cs !! n)).

(** [client.collections.delete(name)] *)
Definition delete (cs : gmap string Collection) (n : string)
  : gmap string Collection := base.delete n cs.

(** [client.collections.create(name=..., ...)]: the server refuses a name
    that is taken. *)
Definition create (cs : gmap string Collection) (n : string) (cfg : Config)
  : Error + gmap string Collection :=
  match cs !! n with
  | Some _ => inl (UnexpectedStatusCodeError "class name already exists")
  | None => inr (<[n := mkCollection cfg []]> cs)
  end.

(** The batch as it is sent: position, object with its fresh uuid, and
    the verdict of the server. *)
Definition batch (env : Env) (data : list Properties)
  : list (nat * Object * option string) :=
  imap (λ i p, (i, mkObject (uuid4 env i) p, server_error env i)) data.

Definition failed (b : list (nat * Object * option string))
  : list (nat * ErrorObject) :=
  omap (λ '(i, o, e), (λ m, (i, mkErrorObject m o)) <$> e) b.

Definition stored (b : list (nat * Object * option string)) : list Object :=
  omap (λ '(_, o, e), match e with None => Some o | Some _ => None end) b.

Definition stored_uuids (b : list (nat * Object * option string))
  : list (nat * N) :=
  omap (λ '(i, o, e),
          match e with None => Some (i, uuid o) | Some _ => None end) b.

(** Modelled from the spec: [collection.data.insert_many(data)] belongs to
    the Weaviate client, which is not part of the repository.  Section 4.3:
    a partial batch failure reports exactly which records failed and leaves
    the successfully inserted ones indexed, with no rollback of the batch.
    So every object is stored or rejected on its own and the response lists
    the rejected positions.  The notebook passes no id, so the uuid of an
    object is the one drawn for it at insertion.  The client raises instead
    of returning when every object of the batch is rejected. *)
Definition insert_many (env : Env) (data : list Properties) (c : Collection)
  : Error + (BatchObjectReturn * Collection) :=
  let b := batch env data in
  let errs := failed b in
  if bool_decide (length errs = length b)
  then inl (WeaviateInsertManyAllFailedError errs)
  else inr (mkBatchObjectReturn (stored_uuids b) errs
              (bool_decide (errs ≠ [])),
            mkCollection (config c) (objects c ++ stored b)).

(** The order of the similarity search.  Only "text" is vectorized
    ("title" has [skip_vectorization] in cell 20). *)
Definition nearer (distance : string → string → N) (query : string)
    (a b : Object) : Prop :=
  (distance query (text (properties a))
   ≤ distance query (text (properties b)))%N.

#[export] Instance nearer_dec distance query :
  RelDecision (nearer distance query).
Proof. intros a b. unfold nearer. apply _. Defined.

(** Ranking by insertion: [x] goes in front of the first object that is
    not strictly nearer than it, so objects at the same distance keep
    their order of insertion (section 4.4: ties are broken by insertion
    rank). *)
Fixpoint insert_ranked (distance : string → string → N) (query : string)
    (x : Object) (l : list Object) : list Object :=
  match l with
  | [] => [x]
  | y :: l' =>
      if decide (nearer distance query x y)
      then x :: y :: l'
      else y :: insert_ranked distance query x l'
  end.

Definition ranked (distance : string → string → N) (query : string)
    (l : list Object) : list Object :=
  foldr (insert_ranked distance query) [] l.

(** Modelled from the spec: [collection.query.near_text(query, limit)]
    belongs to the Weaviate client, which is not part of the repository.
    Sections 4.4 and 6: a nearest-neighbour query with k over the vector
    store, which returns the ranked records, ties in insertion order.  So
    the result is the [limit] nearest objects, nearest first. *)
Definition near_text (distance : string → string → N)
    (query : string) (limit : nat) (c : Collection) : list Object :=
  take limit (ranked distance query (objects c)).

(** Modelled from the spec: [collection.generate.near_text(query, limit,
    grouped_task)] belongs to the Weaviate client, which is not part of
    the repository.  Section 4.4: the retrieved chunks and the prompt go to the
    generation service as one request, and the answer comes back with the
    chunks used.  [complete] is that service. *)
Definition generate_near_text (distance : string → string → N)
    (complete : string → list Properties → string)
    (query : string) (limit : nat) (grouped_task : string) (c : Collection)
  : GenerativeReturn :=
  let objs := near_text distance query limit c in
  mkGenerativeReturn (complete grouped_task (properties <$> objs)) objs.

(** Modelled from the spec: the same call with a generation service that
    can fail ([None]: an error or a timeout of the service).  Section 7:
    a GenerationFailure is surfaced to the caller with the retrieved
    chunks.  The call then raises instead of returning. *)
Definition generate_near_text_or_fail (distance : string → string → N)
    (service : string → list Properties → option string)
    (query : string) (limit : nat) (grouped_task : string) (c : Collection)
  : Error + GenerativeReturn :=
  let objs := near_text distance query limit c in
  match service grouped_task (properties <$> objs) with
  | Some text => inr (mkGenerativeReturn text objs)
  | None => inl (GenerationFailure objs)
  end.

End Weaviate.

(** ** The notebook: global variables, exceptions, cells *)

Inductive Output :=
| Print (s : string)
| PrintErrors (errs : list (nat * Weaviate.ErrorObject))
| Panel (body title border_style : string).

Inductive Response :=
| NoResponse
| InsertResponse (r : Weaviate.BatchObjectReturn)
| GenerateResponse (r : Weaviate.GenerativeReturn).

Inductive Exn :=
| IndexError
| WeaviateError (e : Weaviate.Error).

(** The global variables the cells read and write.  [client] is the state
    of the embedded Weaviate instance, [stdout] what the cells displayed. *)
Record Notebook (Doc : Type) := mkNotebook {
  docs : list Doc;
  source_titles : list string;
  texts : list string;
  titles : list string;
  client : gmap string Weaviate.Collection;
  data : list Weaviate.Properties;
  response : Response;
  stdout : list Output }.

Arguments mkNotebook {Doc}.
Arguments docs {Doc}.
Arguments source_titles {Doc}.
Arguments texts {Doc}.
Arguments titles {Doc}.
Arguments client {Doc}.
Arguments data {Doc}.
Arguments response {Doc}.
Arguments stdout {Doc}.

Definition set_texts {Doc} (v : list string) (s : Notebook Doc) :=
  mkNotebook (docs s) (source_titles s) v (titles s) (client s) (data s)
    (response s) (stdout s).

Definition set_titles {Doc} (v : list string) (s : Notebook Doc) :=
  mkNotebook (docs s) (source_titles s) (texts s) v (client s) (data s)
    (response s) (stdout s).

Definition set_client {Doc} (v : gmap string Weaviate.Collection)
    (s : Notebook Doc) :=
  mkNotebook (docs s) (source_titles s) (texts s) (titles s) v (data s)
    (response s) (stdout s).

Definition set_data {Doc} (v : list Weaviate.Properties) (s : Notebook Doc) :=
  mkNotebook (docs s) (source_titles s) (texts s) (titles s) (client s) v
    (response s) (stdout s).

Definition set_response {Doc} (v : Response) (s : Notebook Doc) :=
  mkNotebook (docs s) (source_titles s) (texts s) (titles s) (client s)
    (data s) v (stdout s).

Definition display {Doc} (o : Output) (s : Notebook Doc) :=
  mkNotebook (docs s) (source_titles s) (texts s) (titles s) (client s)
    (data s) (response s) (stdout s ++ [o]).

(** A cell either runs to its end or stops at an exception; the variables
    keep what was assigned before the exception. *)
Inductive Result (S : Type) :=
| Ok (s : S)
| Raised (e : Exn) (s : S).

Arguments Ok {S}.
Arguments Raised {S}.

Definition Cell (Doc : Type) := Notebook Doc → Result (Notebook Doc).

(** Running one cell after another: an exception stops the run. *)
Definition then_ {Doc} (c1 c2 : Cell Doc) : Cell Doc :=
  λ s, match c1 s with Ok s' => c2 s' | Raised e s' => Raised e s' end.

Notation "c1 ;; c2" := (then_ c1 c2)
  (at level 100, c2 at level 200, right associativity).

Definition state_of {S} (r : Result S) : S :=
  match r with Ok s => s | Raised _ s => s end.

(** *** Cell 12: hierarchical chunking *)

(** [for chunk in chunks: texts.append(chunk.text); titles.append(title)] *)
Definition cell12_chunks (title : string)
    (acc : list string * list string) (chunks : list DocChunk.t)
  : list string * list string :=
  foldl (λ '(texts, titles) chunk,
           (texts ++ [DocChunk.text chunk], titles ++ [title])) acc chunks.

(** [for doc, title in zip(docs, source_titles): chunks = list(chunker.chunk(doc)); ...] *)
Definition cell12_docs {Doc} (chunk : Doc → list DocChunk.t)
    (acc : list string * list string) (pairs : list (Doc * string))
  : list string * list string :=
  foldl (λ acc '(doc, title), cell12_chunks title acc (chunk doc)) acc pairs.

Definition cell12 {Doc} (chunk : Doc → list DocChunk.t) : Cell Doc :=
  λ s,
    let '(texts, titles) :=
      cell12_docs chunk ([], []) (zip (docs s) (source_titles s)) in
    Ok (set_titles titles (set_texts texts s)).

(** *** Cell 14: concatenate title and text *)

(** [texts[i] = f"{titles[i]} {texts[i]}"] *)
Definition cell14_assign (titles : list string) (r : Result (list string))
    (i : nat) : Result (list string) :=
  match r with
  | Ok texts =>
      match titles !! i, texts !! i with
      | Some title, Some text => Ok (<[i := title +:+ " " +:+ text]> texts)
      | _, _ => Raised IndexError texts
      end
  | Raised e texts => Raised e texts
  end.

(** [for i in range(len(texts)): ...] *)
Definition cell14 {Doc} : Cell Doc :=
  λ s,
    match foldl (cell14_assign (titles s)) (Ok (texts s))
            (seq 0 (length (texts s))) with
    | Ok texts => Ok (set_texts texts s)
    | Raised e texts => Raised e (set_texts texts s)
    end.

(** *** Cell 20: create the collection *)

Definition collection_name : string := "docling".

Definition collection_config : Weaviate.Config :=
  Weaviate.mkConfig "text-embedding-3-large" "gpt-4o"
    [Weaviate.mkProperty "text" false; Weaviate.mkProperty "title" true].

Definition cell20 {Doc} : Cell Doc :=
  λ s,
    let cs :=
      if Weaviate.exists_ (client s) collection_name
      then Weaviate.delete (client s) collection_name
      else client s in
    match Weaviate.create cs collection_name collection_config with
    | inl e => Raised (WeaviateError e) (set_client cs s)
    | inr cs' => Ok (set_client cs' s)
    end.

(** *** Cell 22: lists to a list of dictionaries *)

Definition cell22 {Doc} : Cell Doc :=
  λ s,
    Ok (set_data
          (foldl (λ data '(text, title),
                    data ++ [Weaviate.mkProperties text title])
             [] (zip (texts s) (titles s))) s).

(** *** Cell 24: insert into the collection *)

Definition cell24 {Doc} (env : Weaviate.Env) : Cell Doc :=
  λ s,
    match client s !! collection_name with
    | None =>
        Raised (WeaviateError
                  (Weaviate.UnexpectedStatusCodeError "no such collection")) s
    | Some c =>
        match Weaviate.insert_many env (data s) c with
        | inl e => Raised (WeaviateError e) s
        | inr (r, c') =>
            let s' :=
              set_response (InsertResponse r)
                (set_client (<[collection_name := c']> (client s)) s) in
            Ok (display
                  (if Weaviate.has_errors r
                   then PrintErrors (Weaviate.errors r)
                   else Print "Insert complete.") s')
        end
    end.

(** *** Cells 28 and 29: retrieval-augmented generation *)

Definition prompt : string :=
  "Explain how {text} works, using only the retrieved context.".

Definition rag_cell {Doc} (distance : string → string → N)
    (complete : string → list Weaviate.Properties → string)
    (query : string) : Cell Doc :=
  λ s,
    match client s !! collection_name with
    | None =>
        Raised (WeaviateError
                  (Weaviate.UnexpectedStatusCodeError "no such collection")) s
    | Some c =>
        let r := Weaviate.generate_near_text distance complete query 3 prompt c in
        Ok (display (Panel (Weaviate.generated r) "Generated Content"
                       "bold green")
              (display (Panel (replace "{text}" query prompt) "Prompt"
                          "bold red")
                 (set_response (GenerateResponse r) s)))
    end.

Definition cell28 {Doc} distance complete : Cell Doc :=
  rag_cell distance complete "bert".

(** The same cell over a generation service that can fail: the call is the
    first statement after the two assignments, so when it raises nothing
    is displayed and [response] keeps its value.  [rag_cell] is this cell
    over a service that always answers. *)
Definition rag_cell_or_fail {Doc} (distance : string → string → N)
    (service : string → list Weaviate.Properties → option string)
    (query : string) : Cell Doc :=
  λ s,
    match client s !! collection_name with
    | None =>
        Raised (WeaviateError
                  (Weaviate.UnexpectedStatusCodeError "no such collection")) s
    | Some c =>
        match Weaviate.generate_near_text_or_fail distance service query 3
                prompt c with
        | inl e => Raised (WeaviateError e) s
        | inr r =>
            Ok (display (Panel (Weaviate.generated r) "Generated Content"
                           "bold green")
                  (display (Panel (replace "{text}" query prompt) "Prompt"
                              "bold red")
                     (set_response (GenerateResponse r) s)))
        end
    end.

Definition cell29 {Doc} distance complete : Cell Doc :=
  rag_cell distance complete "a generative adversarial net".

(** The indexing sequence: (re)create the collection, build the records,
    insert them. *)
Definition index {Doc} (env : Weaviate.Env) : Cell Doc :=
  cell20 ;; cell22 ;; cell24 env.

(** The whole preparation of the records, from documents to [data]. *)
Definition prepare {Doc} (chunk : Doc → list DocChunk.t) : Cell Doc :=
  cell12 chunk ;; cell14 ;; cell22.

(** The notebook from chunking to insertion, in cell order. *)
Definition pipeline {Doc} (chunk : Doc → list DocChunk.t)
    (env : Weaviate.Env) : Cell Doc :=
  cell12 chunk ;; cell14 ;; index env.

(** Cells 8 and 10 assign the inputs of the run. *)
Definition with_inputs {Doc} (ds : list Doc) (ts : list string)
    (s : Notebook Doc) : Notebook Doc :=
  mkNotebook ds ts (texts s) (titles s) (client s) (data s) (response s)
    (stdout s).

(** *** Cell 17: the OpenAI API key *)

Definition openai_api_key_var : string := "OPENAI_API_KEY".

(** A Colab secret: its value, and whether the notebook has been granted
    access to it. *)
Record Secret := mkSecret { payload : string; access : bool }.

(** Where the notebook runs: the Colab secrets when [google.colab] can be
    imported ([None] when the import fails), and the environment
    variables. *)
Record Host := mkHost {
  colab_secrets : option (gmap string Secret);
  environ : gmap string string }.

Inductive KeyExn :=
| ValueError (msg : string)
| OSError (msg : string)
| SecretNotFoundError (key : string)
| NotebookAccessError (key : string).

(** [userdata.get(key)] of google.colab, which is not part of the
    repository: it raises when the secret does not exist or when the
    notebook has no access to it, and returns the value otherwise. *)
Definition userdata_get (userdata : gmap string Secret) (key : string)
  : KeyExn + string :=
  match userdata !! key with
  | None => inl (SecretNotFoundError key)
  | Some secret =>
      if access secret then inr (payload secret)
      else inl (NotebookAccessError key)
  end.

(** [if not openai_api_key: raise ...]: [None] and the empty string are
    falsy. *)
Definition checked_key (e : KeyExn) (openai_api_key : option string)
  : KeyExn + string :=
  match openai_api_key with
  | None => inl e
  | Some EmptyString => inl e
  | Some k => inr k
  end.

Definition secret_not_found : KeyExn :=
  ValueError ("Secret '" +:+ openai_api_key_var
              +:+ "' not found in Colab secrets.").

Definition variable_not_set : KeyExn :=
  OSError ("Environment variable '" +:+ openai_api_key_var
           +:+ "' is not set. "
           +:+ "Please define it before running this script.").

(** The [try] catches [ImportError] only: the exceptions of
    [userdata.get] and the [ValueError] raised in Colab leave the cell. *)
Definition cell17 (h : Host) : KeyExn + string :=
  match colab_secrets h with
  | Some userdata =>
      match userdata_get userdata openai_api_key_var with
      | inl e => inl e
      | inr openai_api_key => checked_key secret_not_found (Some openai_api_key)
      end
  | None => checked_key variable_not_set (environ h !! openai_api_key_var)
  end.

(** *** Cell 26: similarity search

    The cell binds [response] and prints; here the printed lines are the
    result of the cell. *)

Inductive QueryLine :=
| PrintProperties (p : Weaviate.Properties)
| PrintDistance (d : N).

(** [response.objects] with [metadata.distance] ([return_metadata] asks
    for the distance). *)
Definition cell26_objects (distance : string → string → N)
    (c : Weaviate.Collection) : list (Weaviate.Object * N) :=
  (λ o, (o, distance "bert" (Weaviate.text (Weaviate.properties o))))
    <$> Weaviate.near_text distance "bert" 2 c.

(** [for o in response.objects: print(o.properties); print(o.metadata.distance)] *)
Definition cell26_prints (objs : list (Weaviate.Object * N))
  : list QueryLine :=
  foldl (λ out '(o, d),
           out ++ [PrintProperties (Weaviate.properties o); PrintDistance d])
    [] objs.

Definition cell26 {Doc} (distance : string → string → N) (s : Notebook Doc)
  : Weaviate.Error + list QueryLine :=
  match client s !! collection_name with
  | None => inl (Weaviate.UnexpectedStatusCodeError "no such collection")
  | Some c => inr (cell26_prints (cell26_objects distance c))
  end.

(** ** Vocabulary of the statements *)

(** The rows a run is expected to produce: for every pair of a document
    and its title, in order, one row per chunk, in chunk order. *)
Definition chunk_rows {Doc} (chunk : Doc → list DocChunk.t)
    (pairs : list (Doc * string)) : list (string * string) :=
  pairs ≫= λ '(doc, title), (λ c, (DocChunk.text c, title)) <$> chunk doc.

(** Number of chunks of the first [j] documents: the position in [texts]
    of the first chunk of document [j]. *)
Definition offset {Doc} (chunk : Doc → list DocChunk.t) (ds : list Doc)
    (j : nat) : nat :=
  sum_list_with (λ d, length (chunk d)) (take j ds).

(** What the notebook writes for one row. *)
Definition title_prefixed (row : string * string) : string * string :=
  (row.2 +:+ " " +:+ row.1, row.2).

(** The f-string of cell 14. *)
Definition prefix_title (title text : string) : string :=
  title +:+ " " +:+ text.

(** The dictionary of cell 22, from a pair of [zip(texts, titles)]. *)
Definition data_point (row : string * string) : Weaviate.Properties :=
  Weaviate.mkProperties row.1 row.2.

(** The objects of the "docling" collection. *)
Definition indexed {Doc} (s : Notebook Doc) : list Weaviate.Object :=
  match client s !! collection_name with
  | Some c => Weaviate.objects c
  | None => []
  end.

(** A chunker that forgets the heading paths. *)
Definition without_headings {Doc} (chunk : Doc → list DocChunk.t)
  : Doc → list DocChunk.t :=
  λ d, (λ c, DocChunk.mk (DocChunk.text c) []) <$> chunk d.

Fixpoint has_char (c : Ascii.ascii) (s : string) : bool :=
  match s with
  | EmptyString => false
  | String c' s' => bool_decide (c = c') || has_char c s'
  end.

Definition occurs_in (x s : string) : Prop := ∃ a b, s = a +:+ x +:+ b.

(** The composition policy in its weakest reading: the final text is a
    prefix in which the title and every heading of the path occur, then a
    delimiter holding a line break, then the body. *)
Definition context_composed (title : string) (headings : list string)
    (body final : string) : Prop :=
  ∃ prefix delimiter,
    final = prefix +:+ delimiter +:+ body
    ∧ has_char newline delimiter = true
    ∧ occurs_in title prefix
    ∧ Forall (λ h, occurs_in h prefix) headings.

(** ** A stub chunker and sample runs

    A document of the samples is given by its chunks; the stub chunker
    returns them. *)

Definition stub_chunk : list DocChunk.t → list DocChunk.t := id.

Definition sample_docs : list (list DocChunk.t) :=
  [ [DocChunk.mk "a" ["Intro"]; DocChunk.mk "b" []];
    [DocChunk.mk "x" []];
    [DocChunk.mk "zz" []] ].

Definition sample : Notebook (list DocChunk.t) :=
  mkNotebook sample_docs ["T1"; "T2"] [] [] ∅ [] NoResponse [].

(** The server rejects the object at position 1. *)
Definition sample_env : Weaviate.Env :=
  Weaviate.mkEnv (λ i, N.of_nat (100 + i))
    (λ i, if decide (i = 1) then Some "bad" else None).

(** A server that accepts everything and draws the uuids [base],
    [base + 1], ... *)
Definition fresh_env (base : nat) : Weaviate.Env :=
  Weaviate.mkEnv (λ i, N.of_nat (base + i)) (λ _, None).

(** The sample after cells 12, 14, 20 and 22: ready for the insertion. *)
Definition sample_ready : Notebook (list DocChunk.t) :=
  state_of ((cell12 stub_chunk ;; cell14 ;; cell20 ;; cell22) sample).

(** One document with one chunk. *)
Definition tiny : Notebook (list DocChunk.t) :=
  mkNotebook [[DocChunk.mk "a" []]] ["T"] [] [] ∅ [] NoResponse [].

Definition length_distance (query text : string) : N :=
  N.of_nat (String.length text).

Definition echo_complete (task : string) (ps : list Weaviate.Properties)
  : string :=
  String.concat "|" (Weaviate.text <$> ps).

(** A generation service that answers, and one that is down. *)
Definition echo_service (task : string) (ps : list Weaviate.Properties)
  : option string :=
  Some (echo_complete task ps).

Definition service_down (task : string) (ps : list Weaviate.Properties)
  : option string :=
  None.

(** The sample documents without any title. *)
Definition no_titles : Notebook (list DocChunk.t) :=
  with_inputs sample_docs [] sample.


(** Two texts and one title: the title pass runs out of titles. *)
Definition short_of_titles : Notebook (list DocChunk.t) :=
  mkNotebook sample_docs [] ["a"; "b"] ["T1"] ∅ [] NoResponse [].

(** The sample after its insertion with nothing rejected. *)
Definition sample_indexed : Notebook (list DocChunk.t) :=
  state_of (pipeline stub_chunk (fresh_env 100) sample).

(** A Colab host without the secret, and a plain host with the variable. *)
Definition colab_without_secret : Host :=
  mkHost (Some ∅) {[openai_api_key_var := "sk-env"]}.

Definition colab_with_secret : Host :=
  mkHost (Some {[openai_api_key_var := mkSecret "sk-colab" true]}) ∅.

Definition plain_host : Host :=
  mkHost None {[openai_api_key_var := "sk-env"]}.

(** * Properties *)

(** ** Sanity checks against the notebook's recorded outputs *)

Example prompt_panel_bert :
  replace "{text}" "bert" prompt
  = "Explain how bert works, using only the retrieved context.".
Proof. reflexivity. Qed.

Example replace_does_not_overlap : replace "aa" "b" "aaaaa" = "bba".
Proof. reflexivity. Qed.

Example sample_texts :
  texts (state_of ((cell12 stub_chunk ;; cell14) sample))
  = ["T1 a"; "T1 b"; "T2 x"].
Proof. reflexivity. Qed.

(** The sample has three documents and two titles: the third document is
    not chunked. *)
Example sample_titles :
  titles (state_of (cell12 stub_chunk sample)) = ["T1"; "T1"; "T2"].
Proof. reflexivity. Qed.

(** Running the title pass a second time prefixes the title again. *)
Example title_pass_twice :
  texts (state_of ((cell12 stub_chunk ;; cell14 ;; cell14) sample))
  = ["T1 T1 a"; "T1 T1 b"; "T2 T2 x"].
Proof. reflexivity. Qed.

(** With a title missing the f-string of cell 14 raises at that index; the
    entries before it are already rewritten. *)
Example title_pass_index_error :
  cell14 (mkNotebook sample_docs [] ["a"; "b"] ["T1"] ∅ [] NoResponse [])
  = Raised IndexError
      (mkNotebook sample_docs [] ["T1 a"; "b"] ["T1"] ∅ [] NoResponse []).
Proof. reflexivity. Qed.

Example sample_insertion_output :
  stdout (state_of (pipeline stub_chunk sample_env sample))
  = [PrintErrors
       [(1, Weaviate.mkErrorObject "bad"
              (Weaviate.mkObject 101 (Weaviate.mkProperties "T1 b" "T1")))]]
  ∧ indexed (state_of (pipeline stub_chunk sample_env sample))
    = [Weaviate.mkObject 100 (Weaviate.mkProperties "T1 a" "T1");
       Weaviate.mkObject 102 (Weaviate.mkProperties "T2 x" "T2")].
Proof. split; reflexivity. Qed.

Example sample_insertion_complete :
  stdout (state_of (pipeline stub_chunk (fresh_env 100) sample))
  = [Print "Insert complete."].
Proof. reflexivity. Qed.

(** Creating a collection under a taken name is refused; cell 20 deletes
    first. *)
Example create_taken_name :
  Weaviate.create {[collection_name := Weaviate.mkCollection collection_config []]}
    collection_name collection_config
  = inl (Weaviate.UnexpectedStatusCodeError "class name already exists").
Proof. reflexivity. Qed.

(** ** Running cells in sequence *)

Lemma then_assoc {Doc} (c1 c2 c3 : Cell Doc) s :
  (c1 ;; c2 ;; c3) s = ((c1 ;; c2) ;; c3) s.
Proof. unfold then_. by destruct (c1 s). Qed.

Lemma then_Ok {Doc} (c1 c2 : Cell Doc) s s' :
  c1 s = Ok s' → (c1 ;; c2) s = c2 s'.
Proof. unfold then_. by intros ->. Qed.

(** ** The chunking loop (cell 12) *)

Section Chunking.
Context {Doc : Type} (chunk : Doc → list DocChunk.t).

Lemma cell12_chunks_rows title tx tl chunks :
  cell12_chunks title (tx, tl) chunks
  = (tx ++ (DocChunk.text <$> chunks), tl ++ replicate (length chunks) title).
Proof.
  revert tx tl. induction chunks as [|c cs IH]; intros tx tl; simpl.
  - by rewrite !app_nil_r.
  - unfold cell12_chunks in *. simpl. rewrite IH.
    by rewrite <- !app_assoc.
Qed.

Lemma chunk_rows_cons doc title pairs :
  chunk_rows chunk ((doc, title) :: pairs)
  = ((λ c, (DocChunk.text c, title)) <$> chunk doc) ++ chunk_rows chunk pairs.
Proof. reflexivity. Qed.

Lemma chunk_rows_app p1 p2 :
  chunk_rows chunk (p1 ++ p2) = chunk_rows chunk p1 ++ chunk_rows chunk p2.
Proof. unfold chunk_rows. apply bind_app. Qed.

Lemma cell12_docs_rows tx tl pairs :
  cell12_docs chunk (tx, tl) pairs
  = (tx ++ (chunk_rows chunk pairs).*1, tl ++ (chunk_rows chunk pairs).*2).
Proof.
  revert tx tl. induction pairs as [|[doc title] ps IH]; intros tx tl.
  - simpl. by rewrite !app_nil_r.
  - unfold cell12_docs in *. simpl foldl.
    rewrite cell12_chunks_rows, IH, chunk_rows_cons, !fmap_app.
    rewrite <- !app_assoc. repeat f_equal.
    + rewrite <- list_fmap_compose. by apply list_fmap_ext.
    + rewrite <- list_fmap_compose. simpl.
      induction (chunk doc); simpl; by f_equal.
Qed.

Lemma cell12_run (s : Notebook Doc) :
  cell12 chunk s
  = Ok (set_titles ((chunk_rows chunk (zip (docs s) (source_titles s))).*2)
          (set_texts ((chunk_rows chunk (zip (docs s) (source_titles s))).*1)
             s)).
Proof. unfold cell12. by rewrite cell12_docs_rows. Qed.

Lemma length_chunk_rows pairs :
  length (chunk_rows chunk pairs)
  = sum_list_with (λ p, length (chunk p.1)) pairs.
Proof.
  induction pairs as [|[doc title] ps IH]; [done|].
  rewrite chunk_rows_cons, length_app, length_fmap, IH. done.
Qed.

Lemma offset_zip (ds : list Doc) (ts : list string) j :
  j ≤ length ts →
  length (chunk_rows chunk (take j (zip ds ts))) = offset chunk ds j.
Proof.
  rewrite length_chunk_rows. unfold offset.
  revert ts j. induction ds as [|d ds IH]; intros ts j Hj.
  - by rewrite zip_with_nil_l, !take_nil.
  - destruct j as [|j]; [done|]. destruct ts as [|t ts]; [simpl in Hj; lia|].
    simpl. f_equal. apply IH. simpl in Hj. lia.
Qed.

(** Where the chunk [k] of the pair [j] lands. *)
Lemma chunk_rows_lookup pairs j doc title k c :
  pairs !! j = Some (doc, title) →
  chunk doc !! k = Some c →
  chunk_rows chunk pairs !! (length (chunk_rows chunk (take j pairs)) + k)
  = Some (DocChunk.text c, title).
Proof.
  intros Hj Hk.
  remember (length (chunk_rows chunk (take j pairs))) as n eqn:Hn.
  rewrite <- (take_drop_middle pairs j (doc, title) Hj).
  rewrite chunk_rows_app, chunk_rows_cons. subst n.
  rewrite lookup_app_r by lia.
  match goal with |- _ !! ?i = _ => replace i with k by lia end.
  rewrite lookup_app_l.
  - by rewrite list_lookup_fmap, Hk.
  - rewrite length_fmap. by eapply lookup_lt_Some.
Qed.

(** Every row comes from one chunk of one pair. *)
Lemma chunk_rows_origin pairs i row :
  chunk_rows chunk pairs !! i = Some row →
  ∃ j doc k c,
    pairs !! j = Some (doc, row.2) ∧ chunk doc !! k = Some c
    ∧ row.1 = DocChunk.text c
    ∧ i = length (chunk_rows chunk (take j pairs)) + k.
Proof.
  revert i. induction pairs as [|[doc title] ps IH]; intros i Hi; [done|].
  rewrite chunk_rows_cons in Hi.
  destruct (decide (i < length (chunk doc))) as [Hlt|Hge].
  - rewrite lookup_app_l in Hi by (by rewrite length_fmap).
    rewrite list_lookup_fmap in Hi.
    destruct (chunk doc !! i) as [c|] eqn:Hc; [|done].
    simpl in Hi. injection Hi as <-.
    exists 0, doc, i, c. simpl. done.
  - rewrite lookup_app_r in Hi by (rewrite length_fmap; lia).
    rewrite length_fmap in Hi.
    destruct (IH _ Hi) as (j & d & k & c & Hj & Hk & Ht & Hpos).
    exists (S j), d, k, c. split_and!; [done..|].
    simpl take. rewrite chunk_rows_cons, length_app, length_fmap. lia.
Qed.

End Chunking.

(** ** The title pass (cell 14) and the records (cell 22) *)

(** State of the loop of cell 14 after [k] rounds. *)
Lemma cell14_rounds (tl tx : list string) k :
  k ≤ length tx → k ≤ length tl →
  foldl (cell14_assign tl) (Ok tx) (seq 0 k)
  = Ok (zip_with prefix_title (take k tl) (take k tx) ++ drop k tx).
Proof.
  intros Hk Hlen. induction k as [|k IH].
  - simpl. by rewrite drop_0.
  - rewrite seq_S, foldl_app, IH by lia. simpl.
    destruct (lookup_lt_is_Some_2 tl k) as [t Ht]; [lia|].
    destruct (lookup_lt_is_Some_2 tx k) as [x Hx]; [lia|].
    assert (Hpre : length (zip_with prefix_title (take k tl) (take k tx)) = k).
    { rewrite length_zip_with, !length_take. lia. }
    rewrite Ht, lookup_app_r, Hpre by lia.
    rewrite Nat.sub_diag, lookup_drop, Nat.add_0_r, Hx.
    rewrite insert_app_r_alt, Hpre, Nat.sub_diag by lia.
    rewrite (drop_S tx x k Hx). simpl.
    rewrite (take_S_r tl k t Ht), (take_S_r tx k x Hx).
    rewrite zip_with_app by (rewrite !length_take; lia).
    simpl. by rewrite <- app_assoc.
Qed.

Lemma cell14_run {Doc} (s : Notebook Doc) :
  length (texts s) ≤ length (titles s) →
  cell14 s = Ok (set_texts (zip_with prefix_title (titles s) (texts s)) s).
Proof.
  intros Hlen. unfold cell14.
  rewrite cell14_rounds by lia.
  rewrite drop_all, app_nil_r, firstn_all.
  by rewrite zip_with_take_l.
Qed.

(** With too few titles the pass stops at the first missing one. *)
Lemma cell14_raises {Doc} (s : Notebook Doc) :
  length (titles s) < length (texts s) →
  ∃ s', cell14 s = Raised IndexError s'.
Proof.
  intros Hlen. unfold cell14.
  replace (length (texts s))
    with (length (titles s) + S (length (texts s) - S (length (titles s))))
    by lia.
  rewrite seq_app, foldl_app, cell14_rounds by lia.
  simpl. rewrite lookup_ge_None_2 by lia.
  match goal with
  | |- context [foldl _ (Raised IndexError ?l) ?r] =>
      assert (foldl (cell14_assign (titles s)) (Raised IndexError l) r
              = Raised IndexError l) as ->
        by (induction r; simpl; auto)
  end.
  eauto.
Qed.

Lemma zip_with_prefix_title_rows (rows : list (string * string)) :
  zip_with prefix_title (rows.*2) (rows.*1) = (title_prefixed <$> rows).*1.
Proof. induction rows as [|[x t] rows IH]; simpl; by f_equal. Qed.

Lemma title_prefixed_titles (rows : list (string * string)) :
  (title_prefixed <$> rows).*2 = rows.*2.
Proof. induction rows as [|[x t] rows IH]; simpl; by f_equal. Qed.

Lemma cell22_loop (acc : list Weaviate.Properties) rows :
  foldl (λ data '(text, title), data ++ [Weaviate.mkProperties text title])
    acc rows
  = acc ++ (data_point <$> rows).
Proof.
  revert acc. induction rows as [|[x t] rows IH]; intros acc; simpl.
  - by rewrite app_nil_r.
  - rewrite IH. by rewrite <- app_assoc.
Qed.

Lemma cell22_run {Doc} (s : Notebook Doc) :
  cell22 s = Ok (set_data (data_point <$> zip (texts s) (titles s)) s).
Proof. unfold cell22. by rewrite cell22_loop. Qed.

Section Preparation.
Context {Doc : Type} (chunk : Doc → list DocChunk.t).

Abbreviation rows_of s := (chunk_rows chunk (zip (docs s) (source_titles s))).

Lemma cell12_cell14_run (s : Notebook Doc) :
  (cell12 chunk ;; cell14) s
  = Ok (set_texts ((title_prefixed <$> rows_of s).*1)
          (set_titles ((rows_of s).*2) (set_texts ((rows_of s).*1) s))).
Proof.
  unfold then_. rewrite cell12_run, cell14_run; simpl.
  - by rewrite zip_with_prefix_title_rows.
  - by rewrite !length_fmap.
Qed.

Lemma prepare_run (s : Notebook Doc) :
  prepare chunk s
  = Ok (set_data (data_point <$> (title_prefixed <$> rows_of s))
          (set_texts ((title_prefixed <$> rows_of s).*1)
             (set_titles ((rows_of s).*2) (set_texts ((rows_of s).*1) s)))).
Proof.
  unfold prepare.
  rewrite then_assoc, (then_Ok _ _ _ _ (cell12_cell14_run s)), cell22_run.
  simpl.
  assert (zip ((title_prefixed <$> rows_of s).*1) ((rows_of s).*2)
          = title_prefixed <$> rows_of s) as ->; [|done].
  rewrite <- (title_prefixed_titles (rows_of s)). apply zip_fst_snd.
Qed.

End Preparation.

(** ** Claims about chunking and the title pass *)

Section ChunkingClaims.
Context {Doc : Type} (chunk : Doc → list DocChunk.t).

Lemma rows_lookup (s : Notebook Doc) j doc title k c :
  docs s !! j = Some doc → source_titles s !! j = Some title →
  chunk doc !! k = Some c →
  chunk_rows chunk (zip (docs s) (source_titles s))
    !! (offset chunk (docs s) j + k)
  = Some (DocChunk.text c, title).
Proof.
  intros Hd Ht Hc.
  rewrite <- (offset_zip chunk (docs s) (source_titles s) j)
    by (apply Nat.lt_le_incl; by eapply lookup_lt_Some).
  apply chunk_rows_lookup with doc; [|done].
  rewrite lookup_zip_with, Hd. simpl. by rewrite Ht.
Qed.

Lemma rows_origin (s : Notebook Doc) i row :
  chunk_rows chunk (zip (docs s) (source_titles s)) !! i = Some row →
  ∃ j doc k c,
    docs s !! j = Some doc ∧ source_titles s !! j = Some row.2
    ∧ chunk doc !! k = Some c ∧ row.1 = DocChunk.text c
    ∧ i = offset chunk (docs s) j + k.
Proof.
  intros Hi.
  destruct (chunk_rows_origin chunk _ _ _ Hi)
    as (j & doc & k & c & Hj & Hk & Hrow & Hpos).
  apply lookup_zip_with_Some in Hj as (d & t & [= <- <-] & Hd & Ht).
  exists j, doc, k, c. split_and!; [done..|].
  rewrite Hpos. f_equal. apply offset_zip.
  apply Nat.lt_le_incl. by eapply lookup_lt_Some.
Qed.

(** C8: after the chunking loop [texts] and [titles] have the same length;
    the chunk [k] of the document [j] sits at position
    [offset j + k] of [texts], with the title of document [j] at the same
    position of [titles], and the record built from them sits at the same
    position of [data]; conversely every position of [texts] holds such a
    chunk.  Positions grow with the document and, within a document, with
    the chunk, so both orders are preserved. *)
Theorem texts_titles_aligned (s : Notebook Doc) :
  ∃ s',
    cell12 chunk s = Ok s'
    ∧ length (texts s') = length (titles s')
    ∧ (∀ j doc title k c,
         docs s !! j = Some doc → source_titles s !! j = Some title →
         chunk doc !! k = Some c →
         texts s' !! (offset chunk (docs s) j + k) = Some (DocChunk.text c)
         ∧ titles s' !! (offset chunk (docs s) j + k) = Some title
         ∧ data (state_of (cell22 s')) !! (offset chunk (docs s) j + k)
           = Some (Weaviate.mkProperties (DocChunk.text c) title)
         ∧ data (state_of ((cell14 ;; cell22) s'))
             !! (offset chunk (docs s) j + k)
           = Some (Weaviate.mkProperties
                     (title +:+ " " +:+ DocChunk.text c) title))
    ∧ (∀ i text,
         texts s' !! i = Some text →
         ∃ j doc title k c,
           docs s !! j = Some doc ∧ source_titles s !! j = Some title
           ∧ chunk doc !! k = Some c ∧ i = offset chunk (docs s) j + k
           ∧ text = DocChunk.text c ∧ titles s' !! i = Some title)
    ∧ (∀ j doc, docs s !! j = Some doc →
         offset chunk (docs s) (S j)
         = offset chunk (docs s) j + length (chunk doc)).
Proof.
  eexists. split; [apply cell12_run|].
  cbn [texts titles set_texts set_titles].
  split; [by rewrite !length_fmap|]. split; [|split].
  - intros j doc title k c Hd Ht Hc.
    pose proof (rows_lookup s j doc title k c Hd Ht Hc) as Hrow.
    split_and!.
    + by rewrite list_lookup_fmap, Hrow.
    + by rewrite list_lookup_fmap, Hrow.
    + rewrite cell22_run. simpl. rewrite zip_fst_snd.
      by rewrite list_lookup_fmap, Hrow.
    + rewrite <- (then_Ok _ _ _ _ (cell12_run chunk s)).
      fold (prepare chunk). rewrite prepare_run. simpl.
      by rewrite !list_lookup_fmap, Hrow.
  - intros i text Hi. rewrite list_lookup_fmap in Hi.
    destruct (chunk_rows chunk _ !! i) as [[x t]|] eqn:Hrow; [|done].
    simpl in Hi. injection Hi as <-.
    destruct (rows_origin s i _ Hrow) as (j & d & k & c & ? & ? & ? & ? & ?).
    exists j, d, t, k, c. split_and!; try done.
    by rewrite list_lookup_fmap, Hrow.
  - intros j doc Hd. unfold offset.
    rewrite (take_S_r _ _ _ Hd), sum_list_with_app. simpl. lia.
Qed.

End ChunkingClaims.

(** ** The collection: create and insert *)

Lemma failed_stored_length (b : list (nat * Weaviate.Object * option string)) :
  length (Weaviate.failed b) + length (Weaviate.stored b) = length b.
Proof.
  induction b as [|[[i o] [m|]] b IH]; simpl; [done|..]; simpl; lia.
Qed.

Lemma all_failed_nothing_stored b :
  length (Weaviate.failed b) = length b → Weaviate.stored b = [].
Proof.
  intros H. apply length_zero_iff_nil.
  pose proof (failed_stored_length b). lia.
Qed.

Lemma batch_lookup env data i :
  Weaviate.batch env data !! i
  = (λ p, (i, Weaviate.mkObject (Weaviate.uuid4 env i) p,
           Weaviate.server_error env i)) <$> data !! i.
Proof. unfold Weaviate.batch. apply list_lookup_imap. Qed.

(** The stored objects are those of the positions the server accepted. *)
Lemma elem_of_stored env data o :
  o ∈ Weaviate.stored (Weaviate.batch env data)
  ↔ ∃ i p, data !! i = Some p ∧ Weaviate.server_error env i = None
           ∧ o = Weaviate.mkObject (Weaviate.uuid4 env i) p.
Proof.
  unfold Weaviate.stored. rewrite list_elem_of_omap. split.
  - intros ([[i o'] e] & Hin & Hsome).
    apply list_elem_of_lookup in Hin as [n Hn].
    rewrite batch_lookup in Hn.
    destruct (data !! n) as [p|] eqn:Hp; [|done].
    simpl in Hn. injection Hn as <- <- <-.
    destruct (Weaviate.server_error env n) eqn:He; [done|].
    injection Hsome as <-. eauto.
  - intros (i & p & Hp & He & ->).
    exists (i, Weaviate.mkObject (Weaviate.uuid4 env i) p, None). split; [|done].
    apply list_elem_of_lookup. exists i.
    by rewrite batch_lookup, Hp, He.
Qed.

(** The reported errors are those of the positions the server rejected. *)
Lemma elem_of_failed env data i err :
  (i, err) ∈ Weaviate.failed (Weaviate.batch env data)
  ↔ ∃ p m, data !! i = Some p ∧ Weaviate.server_error env i = Some m
           ∧ err = Weaviate.mkErrorObject m
                     (Weaviate.mkObject (Weaviate.uuid4 env i) p).
Proof.
  unfold Weaviate.failed. rewrite list_elem_of_omap. split.
  - intros ([[i' o'] e] & Hin & Hsome).
    apply list_elem_of_lookup in Hin as [n Hn].
    rewrite batch_lookup in Hn.
    destruct (data !! n) as [p|] eqn:Hp; [|done].
    simpl in Hn. injection Hn as <- <- <-.
    destruct (Weaviate.server_error env n) as [m|] eqn:He; [|done].
    simpl in Hsome. injection Hsome as <- <-. eauto.
  - intros (p & m & Hp & He & ->).
    exists (i, Weaviate.mkObject (Weaviate.uuid4 env i) p, Some m).
    split; [|done].
    apply list_elem_of_lookup. exists i.
    by rewrite batch_lookup, Hp, He.
Qed.

Lemma stored_all_accepted (f : nat → nat) (u : nat → N)
    (data : list Weaviate.Properties) :
  Weaviate.stored (imap (λ i p, (f i, Weaviate.mkObject (u i) p, None)) data)
  = imap (λ i p, Weaviate.mkObject (u i) p) data.
Proof.
  revert f u. induction data as [|p data IH]; intros f u; [done|].
  simpl. f_equal. apply (IH (f ∘ S) (u ∘ S)).
Qed.

Lemma stored_nothing_rejected u data :
  Weaviate.stored (Weaviate.batch (Weaviate.mkEnv u (λ _, None)) data)
  = imap (λ i p, Weaviate.mkObject (u i) p) data.
Proof. apply (stored_all_accepted id). Qed.

Section Indexing.
Context {Doc : Type}.
Implicit Types s : Notebook Doc.

(** Cell 20 never raises: the name is free when [create] is reached. *)
Lemma cell20_run s :
  cell20 s
  = Ok (set_client
          (<[collection_name := Weaviate.mkCollection collection_config []]>
             (client s)) s).
Proof.
  unfold cell20, Weaviate.exists_, Weaviate.delete, Weaviate.create.
  case_bool_decide as Hex.
  - rewrite lookup_delete_eq. by rewrite insert_delete_eq.
  - destruct (client s !! collection_name) eqn:E; [|done].
    exfalso. apply Hex. eauto.
Qed.

Lemma cell20_indexed s : indexed (state_of (cell20 s)) = [].
Proof.
  rewrite cell20_run. unfold indexed. simpl. by rewrite lookup_insert_eq.
Qed.

(** Cell 24 adds the accepted objects to the collection and nothing else,
    whether it returns or raises. *)
Lemma cell24_indexed env s c :
  client s !! collection_name = Some c →
  indexed (state_of (cell24 env s))
  = Weaviate.objects c ++ Weaviate.stored (Weaviate.batch env (data s)).
Proof.
  intros Hc. unfold cell24, Weaviate.insert_many. rewrite Hc.
  case_bool_decide as Hall; simpl.
  - rewrite (all_failed_nothing_stored _ Hall), app_nil_r.
    unfold indexed. by rewrite Hc.
  - unfold indexed. simpl. by rewrite lookup_insert_eq.
Qed.

Lemma cell24_raises_weaviate env s e s' :
  cell24 env s = Raised e s' → ∃ w, e = WeaviateError w.
Proof.
  unfold cell24. destruct (client s !! collection_name); [|naive_solver].
  destruct (Weaviate.insert_many _ _ _) as [w|[r c']]; naive_solver.
Qed.

Lemma index_run env s :
  index env s
  = cell24 env
      (set_data (data_point <$> zip (texts s) (titles s))
         (set_client
            (<[collection_name := Weaviate.mkCollection collection_config []]>
               (client s)) s)).
Proof.
  unfold index.
  rewrite (then_Ok _ _ _ _ (cell20_run s)).
  by rewrite (then_Ok _ _ _ _ (cell22_run _)).
Qed.

(** After the indexing sequence the collection holds the accepted objects
    of this run, whatever it held before. *)
Lemma index_indexed env s :
  indexed (state_of (index env s))
  = Weaviate.stored
      (Weaviate.batch env (data_point <$> zip (texts s) (titles s))).
Proof.
  rewrite index_run.
  erewrite cell24_indexed; [|simpl; apply lookup_insert_eq]. done.
Qed.

Lemma index_keeps_lists env s :
  texts (state_of (index env s)) = texts s
  ∧ titles (state_of (index env s)) = titles s
  ∧ docs (state_of (index env s)) = docs s
  ∧ source_titles (state_of (index env s)) = source_titles s
  ∧ data (state_of (index env s)) = data_point <$> zip (texts s) (titles s).
Proof.
  rewrite index_run. unfold cell24. simpl.
  rewrite lookup_insert_eq.
  destruct (Weaviate.insert_many _ _ _) as [w|[r c']]; done.
Qed.

End Indexing.

(** ** The run from documents to the collection *)

Section Run.
Context {Doc : Type} (chunk : Doc → list DocChunk.t).
Implicit Types s : Notebook Doc.

Lemma pipeline_run env s :
  pipeline chunk env s = index env (state_of ((cell12 chunk ;; cell14) s)).
Proof.
  unfold pipeline. rewrite then_assoc.
  rewrite (then_Ok _ _ _ _ (cell12_cell14_run chunk s)).
  by rewrite cell12_cell14_run.
Qed.

Lemma pipeline_indexed env s :
  indexed (state_of (pipeline chunk env s))
  = Weaviate.stored
      (Weaviate.batch env
         (data_point <$>
            (title_prefixed <$>
               chunk_rows chunk (zip (docs s) (source_titles s))))).
Proof.
  rewrite pipeline_run, index_indexed, cell12_cell14_run. simpl.
  rewrite <- (title_prefixed_titles (chunk_rows chunk _)).
  by rewrite zip_fst_snd.
Qed.

Lemma rows_texts (pairs : list (Doc * string)) :
  (chunk_rows chunk pairs).*1 = DocChunk.text <$> (pairs.*1 ≫= chunk).
Proof.
  induction pairs as [|[doc title] ps IH]; [done|].
  rewrite chunk_rows_cons, fmap_app, IH. simpl.
  rewrite fmap_app. f_equal.
  rewrite <- list_fmap_compose. by apply list_fmap_ext.
Qed.

Lemma zip_min (ds : list Doc) (ts : list string) :
  zip ds ts
  = zip (take (length ds `min` length ts) ds)
      (take (length ds `min` length ts) ts).
Proof. by rewrite zip_with_take_both'. Qed.

Lemma chunked_texts_of_first_docs s :
  texts (state_of (cell12 chunk s))
  = DocChunk.text <$>
      (take (length (docs s) `min` length (source_titles s)) (docs s)
         ≫= chunk).
Proof.
  rewrite cell12_run. simpl. rewrite rows_texts. do 2 f_equal.
  rewrite (zip_min (docs s)).
  apply fst_zip. rewrite !length_take. lia.
Qed.

(** The chunking loop starts from empty lists: what it leaves depends on
    [docs] and [source_titles] alone, whatever [texts] and [titles] held
    before.  (The chunker itself is a parameter here.) *)
Lemma chunking_deterministic s1 s2 :
  docs s1 = docs s2 → source_titles s1 = source_titles s2 →
  ∃ s1' s2',
    cell12 chunk s1 = Ok s1' ∧ cell12 chunk s2 = Ok s2'
    ∧ texts s1' = texts s2' ∧ titles s1' = titles s2'
    ∧ data (state_of (prepare chunk s1)) = data (state_of (prepare chunk s2)).
Proof.
  intros Hd Ht. do 2 eexists.
  split; [apply cell12_run|]. split; [apply cell12_run|].
  rewrite !prepare_run. simpl. by rewrite Hd, Ht.
Qed.

(** C1, as the code has it: the final text of a chunk is the title of its
    document, one space, and the text of the chunk; this is the text of
    the record.  The heading path takes no part in it. *)
Theorem title_is_prepended s :
  ∃ s',
    prepare chunk s = Ok s'
    ∧ (∀ j doc title k c,
         docs s !! j = Some doc → source_titles s !! j = Some title →
         chunk doc !! k = Some c →
         texts s' !! (offset chunk (docs s) j + k)
         = Some (title +:+ " " +:+ DocChunk.text c)
         ∧ data s' !! (offset chunk (docs s) j + k)
           = Some (Weaviate.mkProperties
                     (title +:+ " " +:+ DocChunk.text c) title))
    ∧ texts (state_of (prepare (without_headings chunk) s)) = texts s'.
Proof.
  eexists. split; [apply prepare_run|]. split.
  - intros j doc title k c Hd Ht Hc. simpl.
    by rewrite !list_lookup_fmap, (rows_lookup chunk s j doc title k c).
  - rewrite prepare_run. simpl. do 2 f_equal.
    induction (zip (docs s) (source_titles s)) as [|[d t] ps IH]; [done|].
    rewrite !chunk_rows_cons, IH. f_equal.
    unfold without_headings. rewrite <- list_fmap_compose.
    by apply list_fmap_ext.
Qed.

End Run.

(** ** Claims about the texts after chunking *)

Section TextsClaims.
Context {Doc : Type} (chunk : Doc → list DocChunk.t).
Implicit Types s : Notebook Doc.

Lemma rag_cell_keeps_lists distance complete query s :
  texts (state_of (rag_cell distance complete query s)) = texts s
  ∧ docs (state_of (rag_cell distance complete query s)) = docs s.
Proof. unfold rag_cell. by destruct (client s !! collection_name). Qed.

(** C7, as the code has it: the chunker's chunks are never changed, but the
    text kept for a chunk is: the chunking loop stores the chunk's own
    text, and the title pass (cell 14), run afterwards, overwrites every
    entry of [texts] with the title, a space and the old entry.  The cells
    after the title pass leave [texts] and the documents as they are, and
    the records carry the texts of the title pass. *)
Theorem title_pass_overwrites_texts s :
  ∃ s12 s14,
    cell12 chunk s = Ok s12 ∧ cell14 s12 = Ok s14
    ∧ texts s12
      = DocChunk.text <$>
          (take (length (docs s) `min` length (source_titles s)) (docs s)
             ≫= chunk)
    ∧ texts s14 = zip_with prefix_title (titles s12) (texts s12)
    ∧ titles s14 = titles s12 ∧ docs s14 = docs s
    ∧ (∀ env,
         texts (state_of (index env s14)) = texts s14
         ∧ docs (state_of (index env s14)) = docs s
         ∧ Weaviate.text <$> data (state_of (index env s14)) = texts s14
         ∧ ∀ distance complete query,
             texts (state_of (rag_cell distance complete query
                                (state_of (index env s14)))) = texts s14).
Proof.
  pose proof (chunked_texts_of_first_docs chunk s) as Htexts.
  rewrite cell12_run in Htexts. simpl in Htexts.
  do 2 eexists. split; [apply cell12_run|].
  split; [apply cell14_run; simpl; by rewrite !length_fmap|].
  set (s14 := set_texts _ (set_titles _ _)).
  split; [exact Htexts|]. split_and!; [done..|].
  intros env.
  destruct (index_keeps_lists env s14) as (Ht & Htl & Hd & Hst & Hdata).
  split_and!; [done..| |].
  - rewrite Hdata, <- list_fmap_compose.
    change (Weaviate.text ∘ data_point) with (@fst string string).
    apply fst_zip. subst s14. simpl.
    rewrite length_zip_with, !length_fmap. lia.
  - intros distance complete query.
    by destruct (rag_cell_keeps_lists distance complete query
                   (state_of (index env s14))) as [-> _].
Qed.

End TextsClaims.

(** ** Claims about the collection *)

Section CollectionClaims.
Context {Doc : Type} (chunk : Doc → list DocChunk.t).
Implicit Types s : Notebook Doc.


(** C2, as the code has it: a record handed to the collection is the pair
    of a text and a title and carries no id.  The id of a stored object is
    the uuid the store drew for its position in the batch: the object
    stored from the row [i] has the [i]-th uuid of that call, whatever the
    document and the chunk.  The rows themselves do not depend on the
    store, and when it accepts everything the ids of the collection are
    the first uuids of the call, in order. *)
Theorem ids_are_drawn_by_the_store env s :
  (∀ o,
     o ∈ indexed (state_of (pipeline chunk env s))
     ↔ ∃ i row,
         chunk_rows chunk (zip (docs s) (source_titles s)) !! i = Some row
         ∧ Weaviate.server_error env i = None
         ∧ o = Weaviate.mkObject (Weaviate.uuid4 env i)
                 (data_point (title_prefixed row)))
  ∧ data (state_of (pipeline chunk env s))
    = data_point <$>
        (title_prefixed <$>
           chunk_rows chunk (zip (docs s) (source_titles s)))
  ∧ (∀ u,
       Weaviate.uuid <$>
         indexed (state_of (pipeline chunk (Weaviate.mkEnv u (λ _, None)) s))
       = u <$> seq 0 (length
                        (chunk_rows chunk (zip (docs s) (source_titles s))))).
Proof.
  split_and!.
  - intros o. rewrite pipeline_indexed, elem_of_stored. split.
    + intros (i & p & Hp & He & ->).
      rewrite !list_lookup_fmap in Hp.
      destruct (chunk_rows chunk _ !! i) as [row|] eqn:Hrow; [|done].
      injection Hp as <-. eauto.
    + intros (i & row & Hrow & He & ->).
      exists i, (data_point (title_prefixed row)).
      by rewrite !list_lookup_fmap, Hrow.
  - rewrite pipeline_run.
    destruct (index_keeps_lists env (state_of ((cell12 chunk ;; cell14) s)))
      as (_ & _ & _ & _ & ->).
    rewrite cell12_cell14_run. simpl.
    rewrite <- (title_prefixed_titles (chunk_rows chunk _)).
    by rewrite zip_fst_snd.
  - intros u. rewrite pipeline_indexed, stored_nothing_rejected, fmap_imap.
    etrans; [apply (imap_ext _ (λ i _, u i)); done|].
    by rewrite imap_seq_0, !length_fmap.
Qed.



(** C10: running the indexing sequence a second time on the same texts and
    titles leaves the collection as one run of it does: it holds the
    accepted records of the latest run, and all the records, in order,
    when the store accepts them all. *)
Theorem index_twice_is_index_once env1 env2 s :
  indexed (state_of (index env2 (state_of (index env1 s))))
  = indexed (state_of (index env2 s))
  ∧ indexed (state_of (index env2 (state_of (index env1 s))))
    = Weaviate.stored
        (Weaviate.batch env2 (data_point <$> zip (texts s) (titles s)))
  ∧ (∀ u,
       Weaviate.properties <$>
         indexed (state_of (index (Weaviate.mkEnv u (λ _, None))
                              (state_of (index env1 s))))
       = data_point <$> zip (texts s) (titles s)).
Proof.
  destruct (index_keeps_lists env1 s) as (Ht & Htl & _).
  split_and!.
  - by rewrite !index_indexed, Ht, Htl.
  - by rewrite !index_indexed, Ht, Htl.
  - intros u. rewrite index_indexed, Ht, Htl, stored_nothing_rejected.
    rewrite fmap_imap.
    etrans; [apply (imap_ext _ (const id)); done|].
    by rewrite imap_const, list_fmap_id.
Qed.

End CollectionClaims.

(** ** Claims about the responses *)

#[local] Instance nearer_transitive distance query :
  Transitive (Weaviate.nearer distance query).
Proof. intros a b c. unfold Weaviate.nearer. lia. Qed.

#[local] Instance nearer_total distance query :
  Total (Weaviate.nearer distance query).
Proof. intros a b. unfold Weaviate.nearer. lia. Qed.

#[local] Existing Instance Weaviate.nearer_dec.

(** *** The ranking of the similarity search *)

Lemma insert_ranked_Permutation distance query x l :
  Weaviate.insert_ranked distance query x l ≡ₚ x :: l.
Proof.
  induction l as [|y l IH]; simpl; [done|].
  case_decide; [done|]. by rewrite IH, Permutation_swap.
Qed.

Lemma ranked_Permutation distance query l :
  Weaviate.ranked distance query l ≡ₚ l.
Proof.
  induction l as [|x l IH]; simpl; [done|].
  by rewrite insert_ranked_Permutation, IH.
Qed.

Lemma insert_ranked_sorted distance query x l :
  StronglySorted (Weaviate.nearer distance query) l →
  StronglySorted (Weaviate.nearer distance query)
    (Weaviate.insert_ranked distance query x l).
Proof.
  induction 1 as [|y l Hl IH Hy]; simpl.
  - repeat constructor.
  - case_decide as Hxy.
    + constructor; [by constructor|].
      constructor; [done|].
      eapply Forall_impl; [exact Hy|].
      intros z Hz. by etrans.
    + constructor; [done|].
      rewrite insert_ranked_Permutation. constructor; [|done].
      by destruct (total (Weaviate.nearer distance query) x y).
Qed.

Lemma ranked_sorted distance query l :
  StronglySorted (Weaviate.nearer distance query)
    (Weaviate.ranked distance query l).
Proof.
  induction l as [|x l IH]; simpl; [constructor|].
  by apply insert_ranked_sorted.
Qed.

(** Ties keep the order of insertion: a list that is already in order,
    for instance one whose objects are all at the same distance, is left
    as it is. *)
Lemma ranked_keeps_order distance query l :
  StronglySorted (Weaviate.nearer distance query) l →
  Weaviate.ranked distance query l = l.
Proof.
  induction 1 as [|x l Hl IH Hx]; simpl; [done|].
  rewrite IH. destruct Hx as [|y l Hxy Hx]; simpl; [done|].
  by rewrite decide_True.
Qed.

Section ResponseClaims.
Context {Doc : Type}.
Implicit Types s : Notebook Doc.

(** C4: when the server rejects some objects of the batch and accepts
    others, cell 24 returns, prints the errors of the response, which name
    exactly the rejected positions, each with its object and the uuid it
    was sent with, and the collection has gained exactly the accepted
    objects: what was stored stays stored. *)
Theorem partial_failure_is_reported env s c :
  client s !! collection_name = Some c →
  (∃ i, i < length (data s) ∧ is_Some (Weaviate.server_error env i)) →
  (∃ j, j < length (data s) ∧ Weaviate.server_error env j = None) →
  ∃ s' errs,
    cell24 env s = Ok s'
    ∧ stdout s' = stdout s ++ [PrintErrors errs]
    ∧ (∀ i err,
         (i, err) ∈ errs
         ↔ ∃ p m, data s !! i = Some p
                  ∧ Weaviate.server_error env i = Some m
                  ∧ err = Weaviate.mkErrorObject m
                            (Weaviate.mkObject (Weaviate.uuid4 env i) p))
    ∧ indexed s'
      = Weaviate.objects c ++ Weaviate.stored (Weaviate.batch env (data s))
    ∧ (∀ o,
         o ∈ Weaviate.stored (Weaviate.batch env (data s))
         ↔ ∃ i p, data s !! i = Some p
                  ∧ Weaviate.server_error env i = None
                  ∧ o = Weaviate.mkObject (Weaviate.uuid4 env i) p).
Proof.
  intros Hc (i & Hi & [m Hm]) (j & Hj & Hjn).
  destruct (lookup_lt_is_Some_2 (data s) i Hi) as [p Hp].
  destruct (lookup_lt_is_Some_2 (data s) j Hj) as [q Hq].
  assert (Hfail : (i, Weaviate.mkErrorObject m
                        (Weaviate.mkObject (Weaviate.uuid4 env i) p))
                  ∈ Weaviate.failed (Weaviate.batch env (data s)))
    by (apply elem_of_failed; eauto).
  assert (Hst : Weaviate.mkObject (Weaviate.uuid4 env j) q
                ∈ Weaviate.stored (Weaviate.batch env (data s)))
    by (apply elem_of_stored; eauto).
  unfold cell24, Weaviate.insert_many. rewrite Hc.
  case_bool_decide as Hall.
  { rewrite (all_failed_nothing_stored _ Hall) in Hst.
    by apply elem_of_nil in Hst. }
  cbn [Weaviate.has_errors Weaviate.errors].
  rewrite bool_decide_eq_true_2
    by (intros Hnil; rewrite Hnil in Hfail; by apply elem_of_nil in Hfail).
  eexists _, _. split; [reflexivity|]. split; [reflexivity|]. split_and!.
  - intros i' err. apply elem_of_failed.
  - unfold indexed. simpl. by rewrite lookup_insert_eq.
  - intros o. apply elem_of_stored.
Qed.

Lemma rag_cell_answers distance complete query s :
  rag_cell_or_fail distance (λ task ps, Some (complete task ps)) query s
  = rag_cell distance complete query s.
Proof.
  unfold rag_cell_or_fail, rag_cell. by destruct (client s !! collection_name).
Qed.

(** When the generation service fails the call raises, with the retrieved
    objects in the failure; nothing is displayed and the variables of the
    notebook, [response] among them, keep their values. *)
Lemma generation_failure_raises distance service query s c :
  client s !! collection_name = Some c →
  service prompt
    (Weaviate.properties <$> Weaviate.near_text distance query 3 c) = None →
  rag_cell_or_fail distance service query s
  = Raised (WeaviateError
              (Weaviate.GenerationFailure
                 (Weaviate.near_text distance query 3 c))) s.
Proof.
  intros Hc Hs.
  unfold rag_cell_or_fail, Weaviate.generate_near_text_or_fail.
  by rewrite Hc, Hs.
Qed.

(** C5: when the generation service answers, the response of the
    generative query holds both the generated text and the source objects
    it was generated from.  The sources are the k = 3 nearest objects of
    the collection, nearest first (all of them when the collection holds
    fewer), and the text is the answer of the service to the prompt over
    exactly these sources.  The cell displays the prompt and the text. *)
Theorem answer_holds_text_and_sources distance service query s c text :
  client s !! collection_name = Some c →
  service prompt
    (Weaviate.properties <$> Weaviate.near_text distance query 3 c)
  = Some text →
  ∃ s' r rest,
    rag_cell_or_fail distance service query s = Ok s'
    ∧ response s' = GenerateResponse r
    ∧ Weaviate.generated r = text
    ∧ service prompt (Weaviate.properties <$> Weaviate.returned r)
      = Some (Weaviate.generated r)
    ∧ length (Weaviate.returned r) = 3 `min` length (Weaviate.objects c)
    ∧ Weaviate.returned r ++ rest ≡ₚ Weaviate.objects c
    ∧ StronglySorted (Weaviate.nearer distance query)
        (Weaviate.returned r ++ rest)
    ∧ stdout s'
      = stdout s
        ++ [Panel (replace "{text}" query prompt) "Prompt" "bold red";
            Panel (Weaviate.generated r) "Generated Content" "bold green"].
Proof.
  intros Hc Hs.
  unfold rag_cell_or_fail, Weaviate.generate_near_text_or_fail.
  rewrite Hc, Hs.
  eexists _, _,
    (drop 3 (Weaviate.ranked distance query (Weaviate.objects c))).
  split; [reflexivity|]. split; [reflexivity|].
  cbn [Weaviate.returned Weaviate.generated].
  split; [done|]. split; [done|].
  unfold Weaviate.near_text. rewrite take_drop. split_and!.
  - rewrite length_take. by rewrite ranked_Permutation.
  - apply ranked_Permutation.
  - apply ranked_sorted.
  - simpl. by rewrite <- app_assoc.
Qed.

End ResponseClaims.

(** ** The claims on the samples *)

Lemma has_char_app c (a b : string) :
  has_char c (a +:+ b) = has_char c a || has_char c b.
Proof.
  induction a as [|c' a IH]; simpl; [done|].
  by rewrite IH, orb_assoc.
Qed.

(** C1 fails as stated: the first chunk of the sample has the heading path
    ["Intro"], its record has the text "T1 a", and no prefix, delimiter
    with a line break and body make up that text. *)
Lemma title_prefix_is_no_breadcrumb :
  ∃ doc c title final,
    docs sample !! 0 = Some doc ∧ source_titles sample !! 0 = Some title
    ∧ stub_chunk doc !! 0 = Some c
    ∧ DocChunk.headings c = ["Intro"]
    ∧ data (state_of (prepare stub_chunk sample)) !! 0
      = Some (Weaviate.mkProperties final title)
    ∧ ¬ context_composed title (DocChunk.headings c) (DocChunk.text c) final.
Proof.
  eexists _, _, _, _.
  do 5 (split; [reflexivity|]).
  intros (p & d & Heq & Hnl & _).
  apply (f_equal (has_char newline)) in Heq.
  rewrite !has_char_app, Hnl in Heq. simpl in Heq.
  rewrite orb_true_r in Heq. discriminate Heq.
Qed.

(** C2 fails as stated: two runs on the same documents build the same
    records, and the store gives them different ids. *)
Lemma ids_differ_between_runs :
  data (state_of (pipeline stub_chunk (fresh_env 100) sample))
  = data (state_of (pipeline stub_chunk (fresh_env 200) sample))
  ∧ Weaviate.properties <$>
      indexed (state_of (pipeline stub_chunk (fresh_env 100) sample))
    = Weaviate.properties <$>
        indexed (state_of (pipeline stub_chunk (fresh_env 200) sample))
  ∧ Weaviate.uuid <$>
      indexed (state_of (pipeline stub_chunk (fresh_env 100) sample))
    ≠ Weaviate.uuid <$>
        indexed (state_of (pipeline stub_chunk (fresh_env 200) sample)).
Proof.
  split; [reflexivity|]. split; [reflexivity|].
  vm_compute. intros H. discriminate H.
Qed.

(** The limit is an upper bound: with one record in the collection the
    response of cell 28 holds one source. *)
Example one_record_one_source :
  ∃ r,
    response
      (state_of
         (cell28 length_distance echo_complete
            (state_of (pipeline stub_chunk (fresh_env 100) tiny))))
    = GenerateResponse r
    ∧ length (Weaviate.returned r) = 1.
Proof. eexists. split; [vm_compute; reflexivity|]. reflexivity. Qed.

(** With the service down cell 28 raises and leaves the notebook as it
    was. *)
Example service_down_raises :
  rag_cell_or_fail length_distance service_down "bert" sample_indexed
  = Raised (WeaviateError
              (Weaviate.GenerationFailure (indexed sample_indexed)))
      sample_indexed.
Proof. reflexivity. Qed.

(** C7 fails as stated: the text kept for the first chunk of the sample is
    "a" after the chunking loop and "T1 a" after the title pass. *)
Lemma texts_change_after_creation :
  ∃ s12 s14,
    cell12 stub_chunk sample = Ok s12 ∧ cell14 s12 = Ok s14
    ∧ texts s12 !! 0 = Some "a" ∧ texts s14 !! 0 = Some "T1 a"
    ∧ texts s14 ≠ texts s12.
Proof.
  do 2 eexists. do 4 (split; [reflexivity|]).
  simpl. intros H. discriminate H.
Qed.

(** The chunking loop at the sample and at the sample after a whole
    preparation and the creation of the collection. *)
Lemma chunking_deterministic_sample :
  ∃ s1' s2',
    cell12 stub_chunk sample = Ok s1' ∧ cell12 stub_chunk sample_ready = Ok s2'
    ∧ texts s1' = texts s2' ∧ titles s1' = titles s2'
    ∧ data (state_of (prepare stub_chunk sample))
      = data (state_of (prepare stub_chunk sample_ready)).
Proof.
  apply (chunking_deterministic stub_chunk sample sample_ready); reflexivity.
Defined.

(** The report of a partial failure, at the sample: the server rejects the
    object at position 1 and accepts the two others. *)
Lemma partial_failure_is_reported_sample :
  client sample_ready !! collection_name
  = Some (Weaviate.mkCollection collection_config [])
  ∧ (∃ i, i < length (data sample_ready)
          ∧ is_Some (Weaviate.server_error sample_env i))
  ∧ (∃ j, j < length (data sample_ready)
          ∧ Weaviate.server_error sample_env j = None)
  ∧ ∃ s' errs,
      cell24 sample_env sample_ready = Ok s'
      ∧ stdout s' = stdout sample_ready ++ [PrintErrors errs]
      ∧ (∀ i err,
           (i, err) ∈ errs
           ↔ ∃ p m, data sample_ready !! i = Some p
                    ∧ Weaviate.server_error sample_env i = Some m
                    ∧ err = Weaviate.mkErrorObject m
                              (Weaviate.mkObject
                                 (Weaviate.uuid4 sample_env i) p))
      ∧ indexed s'
        = Weaviate.objects (Weaviate.mkCollection collection_config [])
          ++ Weaviate.stored (Weaviate.batch sample_env (data sample_ready))
      ∧ (∀ o,
           o ∈ Weaviate.stored (Weaviate.batch sample_env (data sample_ready))
           ↔ ∃ i p, data sample_ready !! i = Some p
                    ∧ Weaviate.server_error sample_env i = None
                    ∧ o = Weaviate.mkObject (Weaviate.uuid4 sample_env i) p).
Proof.
  assert (H1 : client sample_ready !! collection_name
               = Some (Weaviate.mkCollection collection_config []))
    by reflexivity.
  assert (H2 : ∃ i, i < length (data sample_ready)
                    ∧ is_Some (Weaviate.server_error sample_env i)).
  { exists 1. split; [vm_compute; lia|]. by exists "bad". }
  assert (H3 : ∃ j, j < length (data sample_ready)
                    ∧ Weaviate.server_error sample_env j = None).
  { exists 0. split; [vm_compute; lia|]. reflexivity. }
  split_and!; [done..|].
  exact (partial_failure_is_reported sample_env sample_ready _ H1 H2 H3).
Defined.

(** The response of cell 28, at the sample after its insertion, with a
    service that answers. *)
Lemma answer_holds_text_and_sources_sample :
  ∃ s' r rest,
    rag_cell_or_fail length_distance echo_service "bert"
      (state_of (cell24 sample_env sample_ready)) = Ok s'
    ∧ response s' = GenerateResponse r
    ∧ Weaviate.generated r = "T1 a|T2 x"
    ∧ echo_service prompt (Weaviate.properties <$> Weaviate.returned r)
      = Some (Weaviate.generated r)
    ∧ length (Weaviate.returned r)
      = 3 `min` length (indexed (state_of (cell24 sample_env sample_ready)))
    ∧ Weaviate.returned r ++ rest
      ≡ₚ indexed (state_of (cell24 sample_env sample_ready))
    ∧ StronglySorted (Weaviate.nearer length_distance "bert")
        (Weaviate.returned r ++ rest)
    ∧ stdout s'
      = stdout (state_of (cell24 sample_env sample_ready))
        ++ [Panel (replace "{text}" "bert" prompt) "Prompt" "bold red";
            Panel (Weaviate.generated r) "Generated Content" "bold green"].
Proof.
  apply (answer_holds_text_and_sources length_distance echo_service "bert"
           (state_of (cell24 sample_env sample_ready))
           (Weaviate.mkCollection collection_config
              (indexed (state_of (cell24 sample_env sample_ready))))
           "T1 a|T2 x");
    reflexivity.
Defined.

(** * Further properties of the cells *)

(** ** Cell 14 outside its happy path *)

Lemma raised_is_kept (tl : list string) e (tx : list string) (l : list nat) :
  foldl (cell14_assign tl) (Raised e tx) l = Raised e tx.
Proof. induction l; simpl; auto. Qed.

Lemma prefix_title_twice (tl tx : list string) :
  zip_with prefix_title tl (zip_with prefix_title tl tx)
  = zip_with (λ t x, t +:+ " " +:+ t +:+ " " +:+ x) tl tx.
Proof.
  revert tx. induction tl as [|t tl IH]; intros [|x tx]; simpl; [done..|].
  by rewrite IH.
Qed.

(** X1: with fewer titles than texts the title pass raises [IndexError] at
    the first index without a title; the entries before it are already
    rewritten and stay so, the others are untouched. *)
Theorem title_pass_stops_at_missing_title {Doc} (s : Notebook Doc) :
  length (titles s) < length (texts s) →
  cell14 s
  = Raised IndexError
      (set_texts
         (zip_with prefix_title (titles s)
            (take (length (titles s)) (texts s))
          ++ drop (length (titles s)) (texts s)) s).
Proof.
  intros Hlen. unfold cell14.
  replace (length (texts s))
    with (length (titles s) + S (length (texts s) - S (length (titles s))))
    by lia.
  rewrite seq_app, foldl_app, cell14_rounds by lia.
  simpl. rewrite lookup_ge_None_2 by lia.
  by rewrite raised_is_kept, firstn_all.
Qed.

(** X2: the title pass is not idempotent: run twice, it leaves every text
    with the title in front of it twice. *)
Theorem title_pass_twice_prefixes_twice {Doc} (s : Notebook Doc) :
  length (texts s) ≤ length (titles s) →
  (cell14 ;; cell14) s
  = Ok (set_texts
          (zip_with (λ t x, t +:+ " " +:+ t +:+ " " +:+ x)
             (titles s) (texts s)) s).
Proof.
  intros Hlen.
  rewrite (then_Ok _ _ _ _ (cell14_run s Hlen)).
  rewrite cell14_run; simpl.
  - by rewrite prefix_title_twice.
  - rewrite length_zip_with. lia.
Qed.

Section CountingChunks.
Context {Doc : Type} (chunk : Doc → list DocChunk.t).
Implicit Types s : Notebook Doc.

(** X3: the chunking loop leaves as many texts, and as many titles, as the
    first [min(len(docs), len(source_titles))] documents have chunks; with
    no document or no title both lists are empty, and the cell does not
    raise. *)
Theorem chunking_loop_counts s :
  ∃ s',
    cell12 chunk s = Ok s'
    ∧ length (texts s')
      = offset chunk (docs s)
          (length (docs s) `min` length (source_titles s))
    ∧ length (titles s') = length (texts s')
    ∧ (docs s = [] ∨ source_titles s = [] → texts s' = [] ∧ titles s' = []).
Proof.
  eexists. split; [apply cell12_run|].
  cbn [texts titles set_texts set_titles]. split_and!.
  - rewrite length_fmap.
    rewrite <- (offset_zip chunk (docs s) (source_titles s)) by lia.
    by rewrite take_ge by (rewrite length_zip_with; lia).
  - by rewrite !length_fmap.
  - intros [H|H]; rewrite H; [done|].
    by rewrite zip_with_nil_r.
Qed.

End CountingChunks.

(** ** Cell 22 *)

Lemma fst_zip_take {A B} (l : list A) (k : list B) :
  (zip l k).*1 = take (length k) l.
Proof.
  revert k. induction l as [|x l IH]; intros [|y k]; simpl; [done..|].
  by rewrite IH.
Qed.

Lemma snd_zip_take {A B} (l : list A) (k : list B) :
  (zip l k).*2 = take (length l) k.
Proof.
  revert k. induction l as [|x l IH]; intros [|y k]; simpl; [done..|].
  by rewrite IH.
Qed.

(** X5: cell 22 builds one record per pair of a text and a title and stops
    at the shorter list: the texts of the records are the first texts, the
    titles of the records the first titles.  The list is built from
    scratch: what [data] held before plays no part, and running the cell
    again changes nothing. *)
Theorem records_pair_texts_with_titles {Doc} (s : Notebook Doc) :
  ∃ s',
    cell22 s = Ok s'
    ∧ length (data s') = length (texts s) `min` length (titles s)
    ∧ Weaviate.text <$> data s' = take (length (titles s)) (texts s)
    ∧ Weaviate.title <$> data s' = take (length (texts s)) (titles s)
    ∧ (∀ d, cell22 (set_data d s) = Ok s')
    ∧ cell22 s' = Ok s'.
Proof.
  eexists. split; [apply cell22_run|]. simpl. split_and!.
  - by rewrite length_fmap, length_zip_with.
  - rewrite <- list_fmap_compose.
    change (Weaviate.text ∘ data_point) with (@fst string string).
    apply fst_zip_take.
  - rewrite <- list_fmap_compose.
    change (Weaviate.title ∘ data_point) with (@snd string string).
    apply snd_zip_take.
  - intros d. by rewrite cell22_run.
  - by rewrite cell22_run.
Qed.

(** ** Cells 20 and 24 on the store *)

Lemma failed_all_accepted (f : nat → nat) (u : nat → N)
    (data : list Weaviate.Properties) :
  Weaviate.failed (imap (λ i p, (f i, Weaviate.mkObject (u i) p, None)) data)
  = [].
Proof.
  revert f u. induction data as [|p data IH]; intros f u; [done|].
  simpl. apply (IH (f ∘ S) (u ∘ S)).
Qed.

Lemma stored_uuids_all_accepted (f : nat → nat) (u : nat → N)
    (data : list Weaviate.Properties) :
  Weaviate.stored_uuids
    (imap (λ i p, (f i, Weaviate.mkObject (u i) p, None)) data)
  = imap (λ i _, (f i, u i)) data.
Proof.
  revert f u. induction data as [|p data IH]; intros f u; [done|].
  simpl. f_equal. apply (IH (f ∘ S) (u ∘ S)).
Qed.

Lemma batch_all_accepted env (data : list Weaviate.Properties) :
  (∀ i, i < length data → Weaviate.server_error env i = None) →
  Weaviate.batch env data
  = imap (λ i p, (i, Weaviate.mkObject (Weaviate.uuid4 env i) p, None)) data.
Proof.
  intros Hacc. unfold Weaviate.batch. apply imap_ext.
  intros i p Hp. by rewrite Hacc by (by eapply lookup_lt_Some).
Qed.

Section StoreCells.
Context {Doc : Type}.
Implicit Types s : Notebook Doc.

(** X4: cell 20 never raises.  It leaves the "docling" collection empty
    with the configuration of the cell, whatever the collection held, and
    touches no other collection and no other variable; run again, it
    changes nothing more. *)
Theorem create_collection_frame s :
  ∃ s',
    cell20 s = Ok s'
    ∧ client s' !! collection_name
      = Some (Weaviate.mkCollection collection_config [])
    ∧ (∀ n, n ≠ collection_name → client s' !! n = client s !! n)
    ∧ texts s' = texts s ∧ titles s' = titles s ∧ data s' = data s
    ∧ docs s' = docs s ∧ source_titles s' = source_titles s
    ∧ response s' = response s ∧ stdout s' = stdout s
    ∧ cell20 s' = Ok s'.
Proof.
  eexists. split; [apply cell20_run|]. simpl. split_and!; try done.
  - apply lookup_insert_eq.
  - intros n Hn. by rewrite lookup_insert_ne.
  - rewrite cell20_run. simpl. by rewrite insert_insert_eq.
Qed.

Lemma cell24_keeps_variables env s :
  texts (state_of (cell24 env s)) = texts s
  ∧ titles (state_of (cell24 env s)) = titles s
  ∧ data (state_of (cell24 env s)) = data s
  ∧ docs (state_of (cell24 env s)) = docs s
  ∧ source_titles (state_of (cell24 env s)) = source_titles s.
Proof.
  unfold cell24. destruct (client s !! collection_name); [|done].
  by destruct (Weaviate.insert_many _ _ _) as [w|[r c']].
Qed.

Lemma cell24_client env s c :
  client s !! collection_name = Some c →
  client (state_of (cell24 env s))
  = <[collection_name :=
        Weaviate.mkCollection (Weaviate.config c)
          (Weaviate.objects c
           ++ Weaviate.stored (Weaviate.batch env (data s)))]> (client s).
Proof.
  intros Hc. unfold cell24, Weaviate.insert_many. rewrite Hc.
  case_bool_decide as Hall; simpl; [|done].
  rewrite (all_failed_nothing_stored _ Hall), app_nil_r.
  symmetry. apply insert_id. rewrite Hc. by destruct c.
Qed.

(** X6: cell 24 appends.  Run a second time without cell 20 in between, it
    stores the records again: the collection then holds what it held, the
    accepted records of the first run and the accepted records of the
    second, in this order. *)
Theorem insert_again_duplicates env1 env2 s c :
  client s !! collection_name = Some c →
  indexed (state_of (cell24 env2 (state_of (cell24 env1 s))))
  = Weaviate.objects c
    ++ Weaviate.stored (Weaviate.batch env1 (data s))
    ++ Weaviate.stored (Weaviate.batch env2 (data s)).
Proof.
  intros Hc.
  destruct (cell24_keeps_variables env1 s) as (_ & _ & Hdata & _).
  assert (client (state_of (cell24 env1 s)) !! collection_name
          = Some (Weaviate.mkCollection (Weaviate.config c)
                    (Weaviate.objects c
                     ++ Weaviate.stored (Weaviate.batch env1 (data s)))))
    as Hc1 by (rewrite (cell24_client env1 s c Hc); apply lookup_insert_eq).
  rewrite (cell24_indexed env2 _ _ Hc1), Hdata. simpl.
  by rewrite <- app_assoc.
Qed.

(** X7: when the server accepts every record of a non-empty [data], cell 24
    prints "Insert complete.", the response lists the uuid of every
    position and no error, and the collection has gained one object per
    record, in the order of [data]. *)
Theorem insert_complete env s c :
  client s !! collection_name = Some c →
  data s ≠ [] →
  (∀ i, i < length (data s) → Weaviate.server_error env i = None) →
  ∃ s',
    cell24 env s = Ok s'
    ∧ stdout s' = stdout s ++ [Print "Insert complete."]
    ∧ response s'
      = InsertResponse
          (Weaviate.mkBatchObjectReturn
             (imap (λ i _, (i, Weaviate.uuid4 env i)) (data s)) [] false)
    ∧ indexed s'
      = Weaviate.objects c
        ++ imap (λ i p, Weaviate.mkObject (Weaviate.uuid4 env i) p) (data s).
Proof.
  intros Hc Hne Hacc.
  unfold cell24, Weaviate.insert_many. rewrite Hc.
  rewrite (batch_all_accepted env (data s) Hacc).
  rewrite failed_all_accepted, stored_uuids_all_accepted, stored_all_accepted.
  rewrite length_imap.
  rewrite bool_decide_eq_false_2
    by (simpl; destruct (data s); [done|simpl; lia]).
  eexists. split; [reflexivity|]. simpl. split_and!; try done.
  unfold indexed. simpl. by rewrite lookup_insert_eq.
Qed.

(** X8: whatever the server answers, and whether cell 24 returns or raises,
    it removes and changes nothing: the objects the collection held are
    still there, in front, the other collections are as they were, and so
    are the lists of the notebook. *)
Theorem insert_keeps_what_is_there env s c :
  client s !! collection_name = Some c →
  (∃ added, indexed (state_of (cell24 env s)) = Weaviate.objects c ++ added)
  ∧ (∀ n, n ≠ collection_name →
       client (state_of (cell24 env s)) !! n = client s !! n)
  ∧ texts (state_of (cell24 env s)) = texts s
  ∧ titles (state_of (cell24 env s)) = titles s
  ∧ data (state_of (cell24 env s)) = data s.
Proof.
  intros Hc.
  destruct (cell24_keeps_variables env s) as (Ht & Htl & Hd & _).
  split_and!; try done.
  - eexists. by apply cell24_indexed.
  - intros n Hn. rewrite (cell24_client env s c Hc).
    by rewrite lookup_insert_ne.
Qed.

(** The generative query reads the store and writes nothing to it:
    the store, the lists and the records are as before; only [response]
    and the output change. *)
Lemma generation_is_read_only distance complete query s :
  client (state_of (rag_cell distance complete query s)) = client s
  ∧ texts (state_of (rag_cell distance complete query s)) = texts s
  ∧ titles (state_of (rag_cell distance complete query s)) = titles s
  ∧ data (state_of (rag_cell distance complete query s)) = data s
  ∧ docs (state_of (rag_cell distance complete query s)) = docs s
  ∧ source_titles (state_of (rag_cell distance complete query s))
    = source_titles s.
Proof. unfold rag_cell. by destruct (client s !! collection_name). Qed.

(** X9: for every query the prompt panel shows the prompt with the query
    in place of the placeholder, while the generation is given the prompt
    as it is, placeholder included: the query reaches the generation only
    through the retrieved objects. *)
Theorem prompt_panel_shows_query distance complete query s c :
  client s !! collection_name = Some c →
  ∃ s' r,
    rag_cell distance complete query s = Ok s'
    ∧ response s' = GenerateResponse r
    ∧ stdout s'
      = stdout s
        ++ [Panel ("Explain how " +:+ query
                   +:+ " works, using only the retrieved context.")
              "Prompt" "bold red";
            Panel (Weaviate.generated r) "Generated Content" "bold green"]
    ∧ Weaviate.generated r
      = complete "Explain how {text} works, using only the retrieved context."
          (Weaviate.properties <$> Weaviate.near_text distance query 3 c).
Proof.
  intros Hc. unfold rag_cell. rewrite Hc.
  eexists _, _. split; [reflexivity|]. split; [reflexivity|]. split.
  - simpl. by rewrite <- app_assoc.
  - reflexivity.
Qed.

End StoreCells.

(** ** Cell 26: the similarity search *)

Lemma cell26_prints_bind (acc : list QueryLine)
    (objs : list (Weaviate.Object * N)) :
  foldl (λ out '(o, d),
           out ++ [PrintProperties (Weaviate.properties o); PrintDistance d])
    acc objs
  = acc ++ (objs ≫= λ '(o, d),
              [PrintProperties (Weaviate.properties o); PrintDistance d]).
Proof.
  revert acc. induction objs as [|[o d] objs IH]; intros acc; simpl.
  - by rewrite app_nil_r.
  - rewrite IH. by rewrite <- app_assoc.
Qed.

Lemma lines_of_objects (dist : Weaviate.Object → N)
    (l : list Weaviate.Object) :
  ((λ o, (o, dist o)) <$> l)
    ≫= (λ '(o, d),
          [PrintProperties (Weaviate.properties o); PrintDistance d])
  = l ≫= λ o, [PrintProperties (Weaviate.properties o);
               PrintDistance (dist o)].
Proof.
  induction l as [|o l IH]; [done|].
  rewrite fmap_cons, !bind_cons, IH. done.
Qed.

Lemma length_near_text distance query limit c :
  length (Weaviate.near_text distance query limit c)
  = limit `min` length (Weaviate.objects c).
Proof.
  unfold Weaviate.near_text.
  by rewrite length_take, ranked_Permutation.
Qed.

Section SimilaritySearch.
Context {Doc : Type}.
Implicit Types s : Notebook Doc.

(** X10: cell 26 prints, for each of the two nearest objects of the
    collection (all of them when it holds fewer), the properties of the
    object and then its distance to the query, nearest object first: the
    lines come in pairs, every object shown is an object of the
    collection, and no object that is not shown first is nearer than one
    that is. *)
Theorem similarity_search_prints_nearest distance s c :
  client s !! collection_name = Some c →
  ∃ shown rest,
    cell26 distance s
    = inr (shown ≫= λ o,
             [PrintProperties (Weaviate.properties o);
              PrintDistance
                (distance "bert" (Weaviate.text (Weaviate.properties o)))])
    ∧ length shown = 2 `min` length (Weaviate.objects c)
    ∧ shown ++ rest ≡ₚ Weaviate.objects c
    ∧ StronglySorted (Weaviate.nearer distance "bert") (shown ++ rest).
Proof.
  intros Hc. unfold cell26, cell26_prints, cell26_objects. rewrite Hc.
  exists (Weaviate.near_text distance "bert" 2 c),
    (drop 2 (Weaviate.ranked distance "bert" (Weaviate.objects c))).
  split_and!.
  - rewrite cell26_prints_bind. simpl. f_equal.
    apply (lines_of_objects
             (λ o, distance "bert" (Weaviate.text (Weaviate.properties o)))).
  - apply length_near_text.
  - unfold Weaviate.near_text. rewrite take_drop.
    apply ranked_Permutation.
  - unfold Weaviate.near_text. rewrite take_drop.
    apply ranked_sorted.
Qed.

(** X11: cells 26 and 28 ask for the same query with limits 2 and 3: the
    objects cell 26 shows are the first two of the sources cell 28
    generates from. *)
Theorem shown_objects_are_first_sources distance complete s c :
  client s !! collection_name = Some c →
  ∃ s' r,
    cell28 distance complete s = Ok s'
    ∧ response s' = GenerateResponse r
    ∧ cell26 distance s
      = inr (take 2 (Weaviate.returned r) ≫= λ o,
               [PrintProperties (Weaviate.properties o);
                PrintDistance
                  (distance "bert" (Weaviate.text (Weaviate.properties o)))])
    ∧ cell26 distance s' = cell26 distance s.
Proof.
  intros Hc. unfold cell28, rag_cell. rewrite Hc.
  eexists _, _. split; [reflexivity|]. split; [reflexivity|].
  unfold cell26, cell26_prints, cell26_objects. simpl. rewrite Hc.
  split; [|done].
  rewrite cell26_prints_bind. simpl. f_equal.
  unfold Weaviate.near_text. rewrite take_take. simpl.
  apply (lines_of_objects
           (λ o, distance "bert" (Weaviate.text (Weaviate.properties o)))).
Qed.

End SimilaritySearch.

(** ** Cell 17: the API key *)

Lemma checked_key_inr e v k :
  checked_key e v = inr k ↔ v = Some k ∧ k ≠ EmptyString.
Proof.
  unfold checked_key.
  destruct v as [[|a v]|];
    (split; [intros H; by simplify_eq | intros [H1 H2]; by simplify_eq]).
Qed.

Lemma checked_key_inl e v e' :
  checked_key e v = inl e'
  ↔ (v = None ∨ v = Some EmptyString) ∧ e' = e.
Proof.
  unfold checked_key.
  destruct v as [[|a v]|];
    (split; [intros H; simplify_eq; auto
            | intros [[H1|H1] H2]; by simplify_eq]).
Qed.

(** X12: cell 17 yields a key exactly when the place it looks at holds a
    non-empty one: in Colab the secret, which must exist and be accessible
    to the notebook, and the environment variable otherwise.  In Colab the
    environment is never consulted: a missing secret raises
    [SecretNotFoundError], an inaccessible one [NotebookAccessError] and an
    empty one [ValueError].  Outside Colab a variable that is not set or
    is empty raises [OSError]. *)
Theorem api_key_source h :
  (∀ k,
     cell17 h = inr k
     ↔ k ≠ EmptyString
       ∧ match colab_secrets h with
         | Some userdata =>
             userdata !! openai_api_key_var = Some (mkSecret k true)
         | None => environ h !! openai_api_key_var = Some k
         end)
  ∧ (∀ userdata env1 env2,
       cell17 (mkHost (Some userdata) env1)
       = cell17 (mkHost (Some userdata) env2))
  ∧ (∀ e,
       cell17 h = inl e
       ↔ match colab_secrets h with
         | Some userdata =>
             match userdata !! openai_api_key_var with
             | None => e = SecretNotFoundError openai_api_key_var
             | Some secret =>
                 if access secret
                 then payload secret = EmptyString ∧ e = secret_not_found
                 else e = NotebookAccessError openai_api_key_var
             end
         | None =>
             (environ h !! openai_api_key_var = None
              ∨ environ h !! openai_api_key_var = Some EmptyString)
             ∧ e = variable_not_set
         end).
Proof.
  split_and!.
  - intros k. unfold cell17, userdata_get.
    destruct (colab_secrets h) as [userdata|];
      [|rewrite checked_key_inr; tauto].
    destruct (userdata !! openai_api_key_var) as [[[|a v] [|]]|]; simpl;
      (split; [intros H; by simplify_eq | intros [H1 H2]; by simplify_eq]).
  - done.
  - intros e. unfold cell17, userdata_get.
    destruct (colab_secrets h) as [userdata|]; [|apply checked_key_inl].
    destruct (userdata !! openai_api_key_var) as [[[|a v] [|]]|]; simpl;
      (split; intros H; destruct_and?; by simplify_eq).
Qed.

(** ** The whole run, object by object *)

Section WholeRun.
Context {Doc : Type} (chunk : Doc → list DocChunk.t).
Implicit Types s : Notebook Doc.

(** X13: after the run from chunking to insertion, every object of the
    collection stems from one chunk of one of the documents that has a
    title: its title is the title of the document, its text the title, a
    space and the text of the chunk, and its uuid the one drawn for the
    position of the chunk among all chunks. *)
Theorem objects_stem_from_chunks env s i o :
  indexed (state_of (pipeline chunk env s)) !! i = Some o →
  ∃ j doc k c,
    docs s !! j = Some doc
    ∧ source_titles s !! j = Some (Weaviate.title (Weaviate.properties o))
    ∧ chunk doc !! k = Some c
    ∧ Weaviate.text (Weaviate.properties o)
      = Weaviate.title (Weaviate.properties o) +:+ " " +:+ DocChunk.text c
    ∧ Weaviate.uuid o = Weaviate.uuid4 env (offset chunk (docs s) j + k)
    ∧ Weaviate.server_error env (offset chunk (docs s) j + k) = None.
Proof.
  intros Hi.
  assert (o ∈ indexed (state_of (pipeline chunk env s))) as Hin
    by (apply list_elem_of_lookup; eauto).
  rewrite pipeline_indexed in Hin.
  apply elem_of_stored in Hin as (n & p & Hp & He & ->).
  rewrite !list_lookup_fmap in Hp.
  destruct (chunk_rows chunk _ !! n) as [[x t]|] eqn:Hrow; [|done].
  injection Hp as <-.
  destruct (rows_origin chunk s n _ Hrow)
    as (j & doc & k & c & Hd & Ht & Hc & Hx & ->).
  simpl in *. subst x. exists j, doc, k, c. done.
Qed.

(** X14: when the server accepts everything, the chunk [k] of the document
    [j] is found in the collection at its position among all chunks, under
    the uuid drawn for that position: nothing is lost on the way from the
    chunker to the collection. *)
Theorem chunks_reach_the_collection u s j doc title k c :
  docs s !! j = Some doc → source_titles s !! j = Some title →
  chunk doc !! k = Some c →
  indexed (state_of (pipeline chunk (Weaviate.mkEnv u (λ _, None)) s))
    !! (offset chunk (docs s) j + k)
  = Some (Weaviate.mkObject (u (offset chunk (docs s) j + k))
            (Weaviate.mkProperties (title +:+ " " +:+ DocChunk.text c) title)).
Proof.
  intros Hd Ht Hc.
  rewrite pipeline_indexed, stored_nothing_rejected, list_lookup_imap.
  by rewrite !list_lookup_fmap, (rows_lookup chunk s j doc title k c).
Qed.

End WholeRun.

(** ** The pairing of documents and titles, up to the collection *)

Section Truncation.
Context {Doc : Type} (chunk : Doc → list DocChunk.t).
Implicit Types s : Notebook Doc.

(** Cell 24 returns exactly when the store accepts one record at least. *)
Lemma cell24_returns_iff env s c :
  client s !! collection_name = Some c →
  (∃ s', cell24 env s = Ok s')
  ↔ ∃ i, i < length (data s) ∧ Weaviate.server_error env i = None.
Proof.
  intros Hc. unfold cell24, Weaviate.insert_many. rewrite Hc.
  pose proof (failed_stored_length (Weaviate.batch env (data s))) as Hlen.
  case_bool_decide as Hall; split.
  - by intros [s' ?].
  - intros (i & Hi & He).
    destruct (lookup_lt_is_Some_2 (data s) i Hi) as [p Hp].
    assert (Weaviate.mkObject (Weaviate.uuid4 env i) p
            ∈ Weaviate.stored (Weaviate.batch env (data s))) as Hin
      by (apply elem_of_stored; eauto).
    rewrite (all_failed_nothing_stored _ Hall) in Hin.
    by apply elem_of_nil in Hin.
  - intros _.
    destruct (Weaviate.stored (Weaviate.batch env (data s)))
      as [|o l] eqn:Hst; [simpl in Hlen; lia|].
    assert (o ∈ Weaviate.stored (Weaviate.batch env (data s))) as Hin
      by (rewrite Hst; left).
    apply elem_of_stored in Hin as (i & p & Hp & He & _).
    exists i. split; [by eapply lookup_lt_Some|done].
  - intros _. eauto.
Qed.

Lemma cell24_raises_all_rejected env s c e s' :
  client s !! collection_name = Some c →
  cell24 env s = Raised e s' →
  ∃ errs, e = WeaviateError (Weaviate.WeaviateInsertManyAllFailedError errs).
Proof.
  intros Hc. unfold cell24, Weaviate.insert_many. rewrite Hc.
  case_bool_decide; [|done]. intros [= <- _]. eauto.
Qed.

(** The run up to the insertion: a fresh, empty collection and the records
    of the first documents and titles. *)
Lemma pipeline_insertion env s :
  ∃ s0,
    pipeline chunk env s = cell24 env s0
    ∧ client s0 !! collection_name
      = Some (Weaviate.mkCollection collection_config [])
    ∧ data s0
      = data_point <$>
          (title_prefixed <$>
             chunk_rows chunk
               (zip (take (length (docs s) `min` length (source_titles s))
                       (docs s))
                  (take (length (docs s) `min` length (source_titles s))
                     (source_titles s)))).
Proof.
  eexists. split; [|split].
  - rewrite pipeline_run, index_run. reflexivity.
  - simpl. apply lookup_insert_eq.
  - rewrite cell12_cell14_run. simpl.
    rewrite <- (zip_min (docs s)).
    rewrite <- (title_prefixed_titles (chunk_rows chunk _)).
    by rewrite zip_fst_snd.
Qed.

(** C9, as the code has it: [zip(docs, source_titles)] stops at the
    shorter list.  With [m = min(len(docs), len(source_titles))], only the
    first [m] documents are chunked; the preparation of the records never
    raises and gives the records of the first [m] documents and titles;
    the objects of the collection are the accepted ones among these
    records.  The run returns exactly when the store accepts one of these
    records at least, and then with all of them in the collection when it
    accepts everything; otherwise, and so whenever no record is left, the
    insertion raises. *)
Theorem zip_truncates_silently s :
  let m := length (docs s) `min` length (source_titles s) in
  let rows :=
    chunk_rows chunk (zip (take m (docs s)) (take m (source_titles s))) in
  texts (state_of (cell12 chunk s))
  = DocChunk.text <$> (take m (docs s) ≫= chunk)
  ∧ (∃ s', prepare chunk s = Ok s'
       ∧ data s' = data_point <$> (title_prefixed <$> rows))
  ∧ (∀ env o,
       o ∈ indexed (state_of (pipeline chunk env s))
       ↔ ∃ i row,
           rows !! i = Some row ∧ Weaviate.server_error env i = None
           ∧ o = Weaviate.mkObject (Weaviate.uuid4 env i)
                   (data_point (title_prefixed row)))
  ∧ (∀ env,
       (∃ s', pipeline chunk env s = Ok s')
       ↔ ∃ i, i < length rows ∧ Weaviate.server_error env i = None)
  ∧ (∀ u,
       rows ≠ [] →
       ∃ s',
         pipeline chunk (Weaviate.mkEnv u (λ _, None)) s = Ok s'
         ∧ indexed s'
           = imap (λ i row,
                     Weaviate.mkObject (u i) (data_point (title_prefixed row)))
               rows)
  ∧ (∀ env e s',
       pipeline chunk env s = Raised e s' →
       ∃ errs,
         e = WeaviateError (Weaviate.WeaviateInsertManyAllFailedError errs)).
Proof.
  intros m rows.
  assert (Hreturns : ∀ env,
            (∃ s', pipeline chunk env s = Ok s')
            ↔ ∃ i, i < length rows ∧ Weaviate.server_error env i = None).
  { intros env.
    destruct (pipeline_insertion env s) as (s0 & -> & Hc & Hdata).
    rewrite (cell24_returns_iff env s0 _ Hc), Hdata.
    by rewrite !length_fmap. }
  assert (Hindexed : ∀ env,
            indexed (state_of (pipeline chunk env s))
            = Weaviate.stored
                (Weaviate.batch env
                   (data_point <$> (title_prefixed <$> rows)))).
  { intros env. rewrite pipeline_indexed. subst rows m.
    by rewrite <- (zip_min (docs s)). }
  split_and!.
  - apply chunked_texts_of_first_docs.
  - eexists. split; [apply prepare_run|].
    simpl. subst rows m. by rewrite <- (zip_min (docs s)).
  - intros env o. rewrite Hindexed, elem_of_stored. split.
    + intros (i & p & Hp & He & ->).
      rewrite !list_lookup_fmap in Hp.
      destruct (rows !! i) as [row|] eqn:Hrow; [|done].
      injection Hp as <-. eauto.
    + intros (i & row & Hrow & He & ->).
      exists i, (data_point (title_prefixed row)).
      by rewrite !list_lookup_fmap, Hrow.
  - exact Hreturns.
  - intros u Hne.
    destruct (proj2 (Hreturns (Weaviate.mkEnv u (λ _, None)))) as [s' Hs'].
    { exists 0. split; [|done]. destruct rows; [done|simpl; lia]. }
    exists s'. split; [done|].
    pose proof (Hindexed (Weaviate.mkEnv u (λ _, None))) as Hi.
    rewrite Hs' in Hi. simpl in Hi.
    by rewrite Hi, stored_nothing_rejected, !imap_fmap.
  - intros env e s'.
    destruct (pipeline_insertion env s) as (s0 & -> & Hc & _).
    by apply (cell24_raises_all_rejected env s0
                (Weaviate.mkCollection collection_config [])).
Qed.

End Truncation.

(** ** The revised claims on the samples *)

(** C9 fails as stated: the sample documents without any title leave no
    record, and the insertion of the empty batch raises, although the
    store rejects nothing. *)
Lemma no_title_run_raises :
  length (docs no_titles) ≠ length (source_titles no_titles)
  ∧ data (state_of (prepare stub_chunk no_titles)) = []
  ∧ ∃ s',
      pipeline stub_chunk (fresh_env 100) no_titles
      = Raised
          (WeaviateError (Weaviate.WeaviateInsertManyAllFailedError [])) s'.
Proof.
  split; [simpl; lia|]. split; [reflexivity|].
  eexists. reflexivity.
Qed.

(** The run on the sample, three documents and two titles: the chunks of
    the first two documents are in the collection. *)
Lemma zip_truncates_silently_sample :
  ∃ s',
    pipeline stub_chunk (fresh_env 100) sample = Ok s'
    ∧ indexed s'
      = [Weaviate.mkObject 100 (Weaviate.mkProperties "T1 a" "T1");
         Weaviate.mkObject 101 (Weaviate.mkProperties "T1 b" "T1");
         Weaviate.mkObject 102 (Weaviate.mkProperties "T2 x" "T2")].
Proof.
  destruct (zip_truncates_silently stub_chunk sample)
    as (_ & _ & _ & _ & H & _).
  apply (H (λ i, N.of_nat (100 + i))).
  simpl. discriminate.
Defined.


(** Objects at the same distance come back in their order of insertion. *)
Example ties_keep_insertion_order :
  Weaviate.near_text length_distance "bert" 3
    (Weaviate.mkCollection collection_config (indexed sample_indexed))
  = indexed sample_indexed.
Proof. reflexivity. Qed.

(** The API key on three hosts. *)
Example key_from_colab : cell17 colab_with_secret = inr "sk-colab".
Proof. reflexivity. Qed.

Example colab_ignores_environment :
  cell17 colab_without_secret = inl (SecretNotFoundError "OPENAI_API_KEY").
Proof. reflexivity. Qed.

Example key_from_environment : cell17 plain_host = inr "sk-env".
Proof. reflexivity. Qed.

(** ** The further properties on the samples *)

Lemma title_pass_stops_at_missing_title_sample :
  cell14 short_of_titles
  = Raised IndexError (set_texts ["T1 a"; "b"] short_of_titles).
Proof.
  apply (title_pass_stops_at_missing_title short_of_titles).
  simpl. lia.
Defined.

Lemma title_pass_twice_prefixes_twice_sample :
  (cell14 ;; cell14) (state_of (cell12 stub_chunk sample))
  = Ok (set_texts ["T1 T1 a"; "T1 T1 b"; "T2 T2 x"]
          (state_of (cell12 stub_chunk sample))).
Proof.
  apply (title_pass_twice_prefixes_twice (state_of (cell12 stub_chunk sample))).
  simpl. lia.
Defined.

Lemma insert_again_duplicates_sample :
  indexed (state_of (cell24 (fresh_env 200)
                       (state_of (cell24 sample_env sample_ready))))
  = [Weaviate.mkObject 100 (Weaviate.mkProperties "T1 a" "T1");
     Weaviate.mkObject 102 (Weaviate.mkProperties "T2 x" "T2");
     Weaviate.mkObject 200 (Weaviate.mkProperties "T1 a" "T1");
     Weaviate.mkObject 201 (Weaviate.mkProperties "T1 b" "T1");
     Weaviate.mkObject 202 (Weaviate.mkProperties "T2 x" "T2")].
Proof.
  apply (insert_again_duplicates sample_env (fresh_env 200) sample_ready
           (Weaviate.mkCollection collection_config [])).
  reflexivity.
Defined.

Lemma insert_complete_sample :
  ∃ s',
    cell24 (fresh_env 100) sample_ready = Ok s'
    ∧ stdout s' = stdout sample_ready ++ [Print "Insert complete."]
    ∧ response s'
      = InsertResponse
          (Weaviate.mkBatchObjectReturn [(0, 100%N); (1, 101%N); (2, 102%N)]
             [] false)
    ∧ indexed s'
      = [Weaviate.mkObject 100 (Weaviate.mkProperties "T1 a" "T1");
         Weaviate.mkObject 101 (Weaviate.mkProperties "T1 b" "T1");
         Weaviate.mkObject 102 (Weaviate.mkProperties "T2 x" "T2")].
Proof.
  apply (insert_complete (fresh_env 100) sample_ready
           (Weaviate.mkCollection collection_config [])).
  - reflexivity.
  - simpl. discriminate.
  - intros i _. reflexivity.
Defined.

Lemma insert_keeps_what_is_there_sample :
  (∃ added,
     indexed (state_of (cell24 sample_env sample_indexed))
     = indexed sample_indexed ++ added)
  ∧ (∀ n, n ≠ collection_name →
       client (state_of (cell24 sample_env sample_indexed)) !! n
       = client sample_indexed !! n)
  ∧ texts (state_of (cell24 sample_env sample_indexed)) = texts sample_indexed
  ∧ titles (state_of (cell24 sample_env sample_indexed))
    = titles sample_indexed
  ∧ data (state_of (cell24 sample_env sample_indexed)) = data sample_indexed.
Proof.
  apply (insert_keeps_what_is_there sample_env sample_indexed
           (Weaviate.mkCollection collection_config (indexed sample_indexed))).
  reflexivity.
Defined.

Lemma prompt_panel_shows_query_sample :
  ∃ s' r,
    rag_cell length_distance echo_complete "a generative adversarial net"
      sample_indexed = Ok s'
    ∧ response s' = GenerateResponse r
    ∧ stdout s'
      = stdout sample_indexed
        ++ [Panel ("Explain how a generative adversarial net works, "
                   +:+ "using only the retrieved context.")
              "Prompt" "bold red";
            Panel (Weaviate.generated r) "Generated Content" "bold green"]
    ∧ Weaviate.generated r
      = echo_complete
          "Explain how {text} works, using only the retrieved context."
          (Weaviate.properties <$>
             Weaviate.near_text length_distance
               "a generative adversarial net" 3
               (Weaviate.mkCollection collection_config
                  (indexed sample_indexed))).
Proof.
  apply (prompt_panel_shows_query length_distance echo_complete
           "a generative adversarial net" sample_indexed
           (Weaviate.mkCollection collection_config (indexed sample_indexed))).
  reflexivity.
Defined.

Lemma similarity_search_prints_nearest_sample :
  ∃ shown rest,
    cell26 length_distance sample_indexed
    = inr (shown ≫= λ o,
             [PrintProperties (Weaviate.properties o);
              PrintDistance
                (length_distance "bert"
                   (Weaviate.text (Weaviate.properties o)))])
    ∧ length shown = 2 `min` length (indexed sample_indexed)
    ∧ shown ++ rest ≡ₚ indexed sample_indexed
    ∧ StronglySorted (Weaviate.nearer length_distance "bert") (shown ++ rest).
Proof.
  apply (similarity_search_prints_nearest length_distance sample_indexed
           (Weaviate.mkCollection collection_config (indexed sample_indexed))).
  reflexivity.
Defined.

Lemma shown_objects_are_first_sources_sample :
  ∃ s' r,
    cell28 length_distance echo_complete sample_indexed = Ok s'
    ∧ response s' = GenerateResponse r
    ∧ cell26 length_distance sample_indexed
      = inr (take 2 (Weaviate.returned r) ≫= λ o,
               [PrintProperties (Weaviate.properties o);
                PrintDistance
                  (length_distance "bert"
                     (Weaviate.text (Weaviate.properties o)))])
    ∧ cell26 length_distance s' = cell26 length_distance sample_indexed.
Proof.
  apply (shown_objects_are_first_sources length_distance echo_complete
           sample_indexed
           (Weaviate.mkCollection collection_config (indexed sample_indexed))).
  reflexivity.
Defined.

Lemma objects_stem_from_chunks_sample :
  ∃ j doc k c,
    docs sample !! j = Some doc
    ∧ source_titles sample !! j = Some "T2"
    ∧ stub_chunk doc !! k = Some c
    ∧ "T2 x" = "T2" +:+ " " +:+ DocChunk.text c
    ∧ 102%N = Weaviate.uuid4 sample_env (offset stub_chunk (docs sample) j + k)
    ∧ Weaviate.server_error sample_env (offset stub_chunk (docs sample) j + k)
      = None.
Proof.
  apply (objects_stem_from_chunks stub_chunk sample_env sample 1
           (Weaviate.mkObject 102 (Weaviate.mkProperties "T2 x" "T2"))).
  reflexivity.
Defined.

Lemma chunks_reach_the_collection_sample :
  indexed (state_of (pipeline stub_chunk (fresh_env 100) sample)) !! 2
  = Some (Weaviate.mkObject 102 (Weaviate.mkProperties "T2 x" "T2")).
Proof.
  apply (chunks_reach_the_collection stub_chunk (λ i, N.of_nat (100 + i))
           sample 1 [DocChunk.mk "x" []] "T2" 0 (DocChunk.mk "x" []));
    reflexivity.
Defined.
